(** * framework/codec.h: encode state, output buffer and per-packet decode data

    A shallow embedding of the inline code of [src/framework/codec.h]:
    the [EncodeFlags] bit set, [EncState], the backward-growing [Buffer],
    the packed [decode_flags] field of [SnortData] and the codec flags.

    Fixed-width unsigned integers are values of [Z] with the wrap-around of
    every narrowing conversion written out ([u8], [u16], [u32]).  An
    address ([uint8_t*]) is a [Z]: pointer arithmetic adds or subtracts the
    integer operand exactly, it is not reduced modulo [2^32]. *)

From Stdlib Require Import ZArith Lia List Bool.
Import ListNotations.

Local Open Scope Z_scope.

(** ** Machine integers *)

Definition wrap (bits x : Z) : Z := x mod 2 ^ bits.

Definition u8 (x : Z) : Z := wrap 8 x.
Definition u16 (x : Z) : Z := wrap 16 x.
Definition u32 (x : Z) : Z := wrap 32 x.

Definition is_u8 (x : Z) : Prop := 0 <= x < 2 ^ 8.
Definition is_u16 (x : Z) : Prop := 0 <= x < 2 ^ 16.
Definition is_u32 (x : Z) : Prop := 0 <= x < 2 ^ 32.
Definition is_u64 (x : Z) : Prop := 0 <= x < 2 ^ 64.

(** Conversion of an integer to [bool]: anything but zero is [true]. *)
Definition to_bool (x : Z) : bool := negb (x =? 0).

(** [x] has every bit of [m]. *)
Definition has_flags (x m : Z) : Prop := Z.land x m = m.

(** ** Encoding: [EncodeFlags] and [EncState] *)

Module Encode.

Definition MIN_TTL : Z := 64.
Definition MAX_TTL : Z := 255.

Definition ENC_FLAG_FWD : Z := 0x8000000000000000.
Definition ENC_FLAG_SEQ : Z := 0x4000000000000000.
Definition ENC_FLAG_ID : Z := 0x2000000000000000.
Definition ENC_FLAG_NET : Z := 0x1000000000000000.
Definition ENC_FLAG_DEF : Z := 0x0800000000000000.
Definition ENC_FLAG_RAW : Z := 0x0400000000000000.
Definition ENC_FLAG_PAY : Z := 0x0200000000000000.
Definition ENC_FLAG_PSH : Z := 0x0100000000000000.
Definition ENC_FLAG_FIN : Z := 0x0080000000000000.
Definition ENC_FLAG_TTL : Z := 0x0040000000000000.
Definition ENC_FLAG_INLINE : Z := 0x0020000000000000.
Definition ENC_FLAG_VAL : Z := 0x00000000FFFFFFFF.

(** The structural flags, in the order of their declaration. *)
Definition structural_flags : list Z :=
  [ ENC_FLAG_FWD; ENC_FLAG_SEQ; ENC_FLAG_ID; ENC_FLAG_NET; ENC_FLAG_DEF;
    ENC_FLAG_RAW; ENC_FLAG_PAY; ENC_FLAG_PSH; ENC_FLAG_FIN; ENC_FLAG_TTL;
    ENC_FLAG_INLINE ].

Definition forward (f : Z) : bool := to_bool (Z.land f ENC_FLAG_FWD).

Definition reverse (f : Z) : bool := negb (forward f).

Definition ENC_PROTO_UNSET : Z := 0xFF.

Section EncState.

(** [ip::IpApi] is declared in protocols/ip.h; [EncState] only holds a
    reference to one. *)
Variable IpApi : Type.

Record EncState : Type := {
  ip_api : IpApi;
  flags : Z;            (* EncodeFlags, uint64_t *)
  dsize : Z;            (* uint16_t *)
  next_ethertype : Z;   (* uint16_t *)
  next_proto : Z;       (* uint8_t *)
  ttl : Z               (* uint8_t *)
}.

(** The constructor.  [pr] is a [uint16_t] stored into the [uint8_t]
    member [next_proto]. *)
Definition EncState_new (api : IpApi) (f pr t data_size : Z) : EncState :=
  {| ip_api := api;
     flags := f;
     dsize := data_size;
     next_ethertype := 0;
     next_proto := u8 pr;
     ttl := t |}.

Definition next_proto_set (es : EncState) : bool :=
  negb (next_proto es =? ENC_PROTO_UNSET).

Definition ethertype_set (es : EncState) : bool :=
  negb (next_ethertype es =? 0).

Definition get_ttl (es : EncState) (lyr_ttl : Z) : Z :=
  if forward (flags es) then
    if to_bool (Z.land (flags es) ENC_FLAG_TTL) then ttl es else lyr_ttl
  else
    let new_ttl :=
      if to_bool (Z.land (flags es) ENC_FLAG_TTL) then ttl es
      else u8 (MAX_TTL - lyr_ttl) in
    let new_ttl := if new_ttl <? MIN_TTL then MIN_TTL else new_ttl in
    new_ttl.

End EncState.

Arguments ip_api {IpApi} _.
Arguments flags {IpApi} _.
Arguments dsize {IpApi} _.
Arguments next_ethertype {IpApi} _.
Arguments next_proto {IpApi} _.
Arguments ttl {IpApi} _.
Arguments EncState_new {IpApi} _ _ _ _ _.
Arguments next_proto_set {IpApi} _.
Arguments ethertype_set {IpApi} _.
Arguments get_ttl {IpApi} _ _.

End Encode.

(** ** The output buffer *)

Module Buf.

(** [base] is an address; [off], [end_] and [max_len] are [uint32_t]
    ([end] is written [end_]). *)
Record Buffer : Type := {
  base : Z;
  off : Z;
  end_ : Z;
  max_len : Z
}.

(** [Buffer(buf, size)]: [buf + size + 1] is pointer arithmetic. *)
Definition Buffer_new (buf size : Z) : Buffer :=
  {| base := buf + size + 1;
     off := 0;
     end_ := 0;
     max_len := size |}.

Definition size (b : Buffer) : Z := end_ b.

(** [allocate(len)]: the result and the buffer afterwards.  [end + len] is
    a sum of two [uint32_t], [base -= len] moves an address. *)
Definition allocate (len : Z) (b : Buffer) : bool * Buffer :=
  if u32 (end_ b + len) >? max_len b then (false, b)
  else
    (true,
     {| base := base b - len;
        off := off b;
        end_ := u32 (end_ b + len);
        max_len := max_len b |}).

Definition clear (b : Buffer) : Buffer :=
  {| base := base b + end_ b;
     off := 0;
     end_ := 0;
     max_len := max_len b |}.

(** The calls a user of the buffer makes. *)
Inductive call : Type :=
| Allocate (len : Z)
| Clear.

Definition call_ok (c : call) : Prop :=
  match c with
  | Allocate len => is_u32 len
  | Clear => True
  end.

Definition step (b : Buffer) (c : call) : Buffer :=
  match c with
  | Allocate len => snd (allocate len b)
  | Clear => clear b
  end.

Definition run (cs : list call) (b : Buffer) : Buffer := fold_left step cs b.

(** The states a buffer built by [Buffer(buf, size)] goes through. *)
Inductive reachable (buf sz : Z) : Buffer -> Prop :=
| reach_new : reachable buf sz (Buffer_new buf sz)
| reach_step b c :
    reachable buf sz b -> call_ok c -> reachable buf sz (step b c).

(** The two invariants of the buffer. *)
Definition within_capacity (b : Buffer) : Prop := 0 <= end_ b <= max_len b.

Definition anchored (buf sz : Z) (b : Buffer) : Prop :=
  base b + end_ b = buf + sz + 1.

(** The sum [end + len] of a call stays below [2^32]. *)
Definition no_wrap (b : Buffer) (c : call) : Prop :=
  match c with
  | Allocate len => end_ b + len < 2 ^ 32
  | Clear => True
  end.

(** A sequence of calls from [b] on, none of which wraps. *)
Fixpoint calls_no_wrap (b : Buffer) (cs : list call) : Prop :=
  match cs with
  | [] => True
  | c :: cs' => call_ok c /\ no_wrap b c /\ calls_no_wrap (step b c) cs'
  end.

(** The bit pattern of an address held in a 64-bit pointer. *)
Definition ptr64 (p : Z) : Z := wrap 64 p.

End Buf.

(** ** Decoding: [DecodeFlags], [PktType], [SnortData] and the codec flags *)

Module Decode.

Definition PKT_TYPE_UNKOWN : Z := 0x00.
Definition PKT_TYPE_IP : Z := 0x01.
Definition PKT_TYPE_TCP : Z := 0x02.
Definition PKT_TYPE_UDP : Z := 0x03.
Definition PKT_TYPE_ICMP4 : Z := 0x04.
Definition PKT_TYPE_ICMP6 : Z := 0x05.
Definition PKT_TYPE_ARP : Z := 0x06.
Definition PKT_TYPE_FREE : Z := 0x07.
Definition PKT_TYPE_MASK : Z := 0x07.

Definition DECODE_ERR_CKSUM_IP : Z := 0x0008.
Definition DECODE_ERR_CKSUM_TCP : Z := 0x0010.
Definition DECODE_ERR_CKSUM_UDP : Z := 0x0020.
Definition DECODE_ERR_CKSUM_ICMP : Z := 0x0040.
Definition DECODE_ERR_CKSUM_ANY : Z := 0x0080.
Definition DECODE_ERR_BAD_TTL : Z := 0x0100.
Definition DECODE_ERR_FLAGS : Z :=
  Z.lor DECODE_ERR_CKSUM_IP
    (Z.lor DECODE_ERR_CKSUM_TCP
       (Z.lor DECODE_ERR_CKSUM_UDP
          (Z.lor DECODE_ERR_CKSUM_UDP
             (Z.lor DECODE_ERR_CKSUM_ICMP
                (Z.lor DECODE_ERR_CKSUM_ANY DECODE_ERR_BAD_TTL))))).
Definition DECODE_PKT_TRUST : Z := 0x0200.
Definition DECODE_FRAG : Z := 0x0400.
Definition DECODE_MF : Z := 0x0800.

(** The flags of [decode_flags] that are not the packet type. *)
Definition decode_flag_bits : list Z :=
  [ DECODE_ERR_CKSUM_IP; DECODE_ERR_CKSUM_TCP; DECODE_ERR_CKSUM_UDP;
    DECODE_ERR_CKSUM_ICMP; DECODE_ERR_CKSUM_ANY; DECODE_ERR_BAD_TTL;
    DECODE_ERR_FLAGS; DECODE_PKT_TRUST; DECODE_FRAG; DECODE_MF ].

(** The enumerators of [enum class PktType : std::uint8_t]. *)
Inductive PktType : Type :=
| UNKOWN
| IP
| TCP
| UDP
| ICMP4
| ICMP6
| ARP.

(** The value of an enumerator. *)
Definition PktType_val (t : PktType) : Z :=
  match t with
  | UNKOWN => PKT_TYPE_UNKOWN
  | IP => PKT_TYPE_IP
  | TCP => PKT_TYPE_TCP
  | UDP => PKT_TYPE_UDP
  | ICMP4 => PKT_TYPE_ICMP4
  | ICMP6 => PKT_TYPE_ICMP6
  | ARP => PKT_TYPE_ARP
  end.

(** The enumerator a value of the type names, if any ([7] names none). *)
Definition PktType_of_val (v : Z) : option PktType :=
  if v =? PKT_TYPE_UNKOWN then Some UNKOWN
  else if v =? PKT_TYPE_IP then Some IP
  else if v =? PKT_TYPE_TCP then Some TCP
  else if v =? PKT_TYPE_UDP then Some UDP
  else if v =? PKT_TYPE_ICMP4 then Some ICMP4
  else if v =? PKT_TYPE_ICMP6 then Some ICMP6
  else if v =? PKT_TYPE_ARP then Some ARP
  else None.

Definition all_PktType : list PktType :=
  [UNKOWN; IP; TCP; UDP; ICMP4; ICMP6; ARP].

(** The codec flags of [CodecData::codec_flags]. *)
Definition CODEC_DF : Z := 0x0001.
Definition CODEC_UNSURE_ENCAP : Z := 0x0002.
Definition CODEC_SAVE_LAYER : Z := 0x0004.
Definition CODEC_ENCAP_LAYER : Z :=
  u16 (Z.lor CODEC_SAVE_LAYER CODEC_UNSURE_ENCAP).
Definition CODEC_ROUTING_SEEN : Z := 0x0008.
Definition CODEC_IPOPT_RR_SEEN : Z := 0x0010.
Definition CODEC_IPOPT_RTRALT_SEEN : Z := 0x0020.
Definition CODEC_IPOPT_LEN_THREE : Z := 0x0040.
Definition CODEC_TEREDO_SEEN : Z := 0x0080.
Definition CODEC_STREAM_REBUILT : Z := 0x0100.

(** The data members of [SnortData], in the order of their declaration. *)
Inductive member : Type :=
| M_tcph
| M_udph
| M_icmph
| M_sp
| M_dp
| M_decode_flags
| M_ip_api
| M_mplsHdr.

Definition members : list member :=
  [M_tcph; M_udph; M_icmph; M_sp; M_dp; M_decode_flags; M_ip_api; M_mplsHdr].

Definition member_eqb (a b : member) : bool :=
  match a, b with
  | M_tcph, M_tcph | M_udph, M_udph | M_icmph, M_icmph | M_sp, M_sp
  | M_dp, M_dp | M_decode_flags, M_decode_flags | M_ip_api, M_ip_api
  | M_mplsHdr, M_mplsHdr => true
  | _, _ => false
  end.

(** The members of [l] before [m]. *)
Fixpoint until (m : member) (l : list member) : list member :=
  match l with
  | [] => []
  | x :: l' => if member_eqb x m then [] else x :: until m l'
  end.

(** The members of [l] from [m] on. *)
Fixpoint from (m : member) (l : list member) : list member :=
  match l with
  | [] => []
  | x :: l' => if member_eqb x m then l else from m l'
  end.

(** The members that lie between the address of [first] and the address
    of [upto]: members are laid out in the order of their declaration, so
    these are the ones declared from [first] on and before [upto].  For
    the first member of the struct the distance between the two is
    [offsetof(SnortData, upto)]. *)
Definition span (first upto : member) : list member :=
  until upto (from first members).

Section SnortData.

(** [ip::IpApi] (protocols/ip.h) and [mpls::MplsHdr] (protocols/mpls.h)
    are declared outside this file: the types, the object of each type
    whose bytes are all zero, and [IpApi::reset] are parameters. *)
Variable IpApi : Type.
Variable MplsHdr : Type.
Variable IpApi_zero : IpApi.
Variable MplsHdr_zero : MplsHdr.
Variable IpApi_reset : IpApi -> IpApi.

(** A header pointer is an address, the null pointer is [0]. *)
Record SnortData : Type := {
  tcph : Z;
  udph : Z;
  icmph : Z;
  sp : Z;             (* uint16_t *)
  dp : Z;             (* uint16_t *)
  decode_flags : Z;   (* uint16_t *)
  ip_api : IpApi;
  mplsHdr : MplsHdr
}.

(** All bytes of one member set to zero. *)
Definition zero_member (s : SnortData) (m : member) : SnortData :=
  match m with
  | M_tcph =>
      {| tcph := 0; udph := udph s; icmph := icmph s; sp := sp s;
         dp := dp s; decode_flags := decode_flags s; ip_api := ip_api s;
         mplsHdr := mplsHdr s |}
  | M_udph =>
      {| tcph := tcph s; udph := 0; icmph := icmph s; sp := sp s;
         dp := dp s; decode_flags := decode_flags s; ip_api := ip_api s;
         mplsHdr := mplsHdr s |}
  | M_icmph =>
      {| tcph := tcph s; udph := udph s; icmph := 0; sp := sp s;
         dp := dp s; decode_flags := decode_flags s; ip_api := ip_api s;
         mplsHdr := mplsHdr s |}
  | M_sp =>
      {| tcph := tcph s; udph := udph s; icmph := icmph s; sp := 0;
         dp := dp s; decode_flags := decode_flags s; ip_api := ip_api s;
         mplsHdr := mplsHdr s |}
  | M_dp =>
      {| tcph := tcph s; udph := udph s; icmph := icmph s; sp := sp s;
         dp := 0; decode_flags := decode_flags s; ip_api := ip_api s;
         mplsHdr := mplsHdr s |}
  | M_decode_flags =>
      {| tcph := tcph s; udph := udph s; icmph := icmph s; sp := sp s;
         dp := dp s; decode_flags := 0; ip_api := ip_api s;
         mplsHdr := mplsHdr s |}
  | M_ip_api =>
      {| tcph := tcph s; udph := udph s; icmph := icmph s; sp := sp s;
         dp := dp s; decode_flags := decode_flags s; ip_api := IpApi_zero;
         mplsHdr := mplsHdr s |}
  | M_mplsHdr =>
      {| tcph := tcph s; udph := udph s; icmph := icmph s; sp := sp s;
         dp := dp s; decode_flags := decode_flags s; ip_api := ip_api s;
         mplsHdr := MplsHdr_zero |}
  end.

(** [memset((char* )&first, 0, offsetof(SnortData, upto))]. *)
Definition memset_zero (first upto : member) (s : SnortData) : SnortData :=
  fold_left zero_member (span first upto) s.

(** [ip_api.reset()] on the member. *)
Definition reset_ip_api (s : SnortData) : SnortData :=
  {| tcph := tcph s; udph := udph s; icmph := icmph s; sp := sp s;
     dp := dp s; decode_flags := decode_flags s;
     ip_api := IpApi_reset (ip_api s);
     mplsHdr := mplsHdr s |}.

Definition reset (s : SnortData) : SnortData :=
  reset_ip_api (memset_zero M_tcph M_ip_api s).

(** [set_pkt_type]: the operands of [&], [~] and [|] are promoted to
    [int], the result is stored into the [uint16_t] member. *)
Definition set_pkt_type (pkt_type : PktType) (s : SnortData) : SnortData :=
  {| tcph := tcph s; udph := udph s; icmph := icmph s; sp := sp s;
     dp := dp s;
     decode_flags :=
       u16 (Z.lor (Z.land (decode_flags s) (Z.lnot PKT_TYPE_MASK))
                  (u16 (PktType_val pkt_type)));
     ip_api := ip_api s;
     mplsHdr := mplsHdr s |}.

(** [get_pkt_type]: the value of the [PktType] returned. *)
Definition get_pkt_type (s : SnortData) : Z :=
  u8 (Z.land (decode_flags s) PKT_TYPE_MASK).

End SnortData.

Arguments tcph {IpApi MplsHdr} _.
Arguments udph {IpApi MplsHdr} _.
Arguments icmph {IpApi MplsHdr} _.
Arguments sp {IpApi MplsHdr} _.
Arguments dp {IpApi MplsHdr} _.
Arguments decode_flags {IpApi MplsHdr} _.
Arguments ip_api {IpApi MplsHdr} _.
Arguments mplsHdr {IpApi MplsHdr} _.
Arguments set_pkt_type {IpApi MplsHdr} _ _.
Arguments get_pkt_type {IpApi MplsHdr} _.
Arguments reset {IpApi MplsHdr} _ _ _ _.
Arguments memset_zero {IpApi MplsHdr} _ _ _ _ _.
Arguments reset_ip_api {IpApi MplsHdr} _ _.

End Decode.

(** ** [CodecData], the protocol bits and the [Codec] class *)

Module Codec.

Definition PROTO_BIT__NONE : Z := 0x0000.
Definition PROTO_BIT__IP : Z := 0x0001.
Definition PROTO_BIT__ARP : Z := 0x0002.
Definition PROTO_BIT__TCP : Z := 0x0004.
Definition PROTO_BIT__UDP : Z := 0x0008.
Definition PROTO_BIT__ICMP : Z := 0x0010.
Definition PROTO_BIT__TEREDO : Z := 0x0020.
Definition PROTO_BIT__GTP : Z := 0x0040.
Definition PROTO_BIT__MPLS : Z := 0x0080.
Definition PROTO_BIT__VLAN : Z := 0x0100.
Definition PROTO_BIT__ETH : Z := 0x0200.
Definition PROTO_BIT__TCP_EMBED_ICMP : Z := 0x0400.
Definition PROTO_BIT__UDP_EMBED_ICMP : Z := 0x0800.
Definition PROTO_BIT__ICMP_EMBED_ICMP : Z := 0x1000.
Definition PROTO_BIT__IP6_EXT : Z := 0x2000.
Definition PROTO_BIT__FREE : Z := 0x4000.
Definition PROTO_BIT__OTHER : Z := 0x8000.
Definition PROTO_BIT__ALL : Z := 0xffff.

(** The protocol bits, in the order of their definition. *)
Definition proto_bits_all : list Z :=
  [ PROTO_BIT__IP; PROTO_BIT__ARP; PROTO_BIT__TCP; PROTO_BIT__UDP;
    PROTO_BIT__ICMP; PROTO_BIT__TEREDO; PROTO_BIT__GTP; PROTO_BIT__MPLS;
    PROTO_BIT__VLAN; PROTO_BIT__ETH; PROTO_BIT__TCP_EMBED_ICMP;
    PROTO_BIT__UDP_EMBED_ICMP; PROTO_BIT__ICMP_EMBED_ICMP;
    PROTO_BIT__IP6_EXT; PROTO_BIT__FREE; PROTO_BIT__OTHER ].

Definition CODEC_IPOPT_FLAGS : Z :=
  u16 (Z.lor Decode.CODEC_IPOPT_RR_SEEN
         (Z.lor Decode.CODEC_IPOPT_RTRALT_SEEN Decode.CODEC_IPOPT_LEN_THREE)).

(** The codec flags that are one bit each, in the order of their
    declaration. *)
Definition codec_flag_bits : list Z :=
  [ Decode.CODEC_DF; Decode.CODEC_UNSURE_ENCAP; Decode.CODEC_SAVE_LAYER;
    Decode.CODEC_ROUTING_SEEN; Decode.CODEC_IPOPT_RR_SEEN;
    Decode.CODEC_IPOPT_RTRALT_SEEN; Decode.CODEC_IPOPT_LEN_THREE;
    Decode.CODEC_TEREDO_SEEN; Decode.CODEC_STREAM_REBUILT ].

(** [Codec::PKT_MAX], a [uint32_t]. *)
Definition PKT_MAX : Z := u32 (14 + 4 + 1500 + 65535).

(** A call whose length is a [uint16_t], as the layer lengths of
    [CodecData::lyr_len] and of [encode]'s [raw_len] are. *)
Definition short_call (c : Buf.call) : Prop :=
  match c with
  | Buf.Allocate len => is_u16 len
  | Buf.Clear => True
  end.

End Codec.

(** * Properties *)

(** ** Machine integers *)

Lemma wrap_small bits x : 0 <= x < 2 ^ bits -> wrap bits x = x.
Proof. intros H. unfold wrap. now apply Z.mod_small. Qed.

Lemma wrap_range bits x : 0 <= bits -> 0 <= wrap bits x < 2 ^ bits.
Proof.
  intros Hb. unfold wrap. apply Z.mod_pos_bound.
  now apply Z.pow_pos_nonneg.
Qed.

Lemma wrap_testbit bits x i :
  0 <= bits ->
  Z.testbit (wrap bits x) i = if i <? bits then Z.testbit x i else false.
Proof.
  intros Hb. unfold wrap.
  destruct (i <? bits) eqn:E.
  - apply Z.ltb_lt in E. now apply Z.mod_pow2_bits_low.
  - apply Z.ltb_ge in E. now apply Z.mod_pow2_bits_high.
Qed.

Lemma to_bool_true x : to_bool x = true <-> x <> 0.
Proof.
  unfold to_bool. rewrite negb_true_iff. apply Z.eqb_neq.
Qed.

Lemma to_bool_false x : to_bool x = false <-> x = 0.
Proof.
  unfold to_bool. rewrite negb_false_iff. apply Z.eqb_eq.
Qed.

(** Masking with a single bit leaves that bit or nothing. *)
Lemma land_pow2 x k :
  0 <= k -> Z.land x (2 ^ k) = if Z.testbit x k then 2 ^ k else 0.
Proof.
  intros Hk. apply Z.bits_inj'. intros i Hi.
  rewrite Z.land_spec, Z.pow2_bits_eqb by assumption.
  destruct (Z.eqb_spec k i) as [->|Hne].
  - destruct (Z.testbit x i) eqn:E; simpl.
    + now rewrite Z.pow2_bits_true.
    + now rewrite Z.bits_0.
  - rewrite andb_false_r.
    destruct (Z.testbit x k).
    + now rewrite Z.pow2_bits_false.
    + now rewrite Z.bits_0.
Qed.

(** Testing a single-bit flag reads that bit. *)
Lemma to_bool_land_pow2 x k :
  0 <= k -> to_bool (Z.land x (2 ^ k)) = Z.testbit x k.
Proof.
  intros Hk. rewrite land_pow2 by assumption.
  destruct (Z.testbit x k).
  - apply to_bool_true.
    assert (0 < 2 ^ k) by now apply Z.pow_pos_nonneg.
    lia.
  - reflexivity.
Qed.

(** ** [EncState] *)

Lemma forward_testbit f : Encode.forward f = Z.testbit f 63.
Proof.
  unfold Encode.forward.
  change Encode.ENC_FLAG_FWD with (2 ^ 63).
  apply to_bool_land_pow2. lia.
Qed.

Lemma reverse_testbit f : Encode.reverse f = negb (Z.testbit f 63).
Proof. unfold Encode.reverse. now rewrite forward_testbit. Qed.

Lemma ttl_flag_testbit f :
  to_bool (Z.land f Encode.ENC_FLAG_TTL) = Z.testbit f 54.
Proof.
  change Encode.ENC_FLAG_TTL with (2 ^ 54).
  apply to_bool_land_pow2. lia.
Qed.

(** The floor of the reverse direction is a maximum. *)
Lemma floor_max x :
  (if x <? Encode.MIN_TTL then Encode.MIN_TTL else x) = Z.max x 64.
Proof.
  unfold Encode.MIN_TTL.
  destruct (Z.ltb_spec x 64); lia.
Qed.

(** The result of [get_ttl] is a [uint8_t] whenever its inputs are. *)
Lemma get_ttl_range (IpApi : Type) (es : Encode.EncState IpApi) (lyr_ttl : Z) :
  is_u8 lyr_ttl -> is_u8 (Encode.ttl es) ->
  is_u8 (Encode.get_ttl es lyr_ttl).
Proof.
  intros Hl Ht. unfold Encode.get_ttl. cbv zeta.
  rewrite !floor_max.
  pose proof (wrap_range 8 (Encode.MAX_TTL - lyr_ttl) ltac:(lia)) as Hw.
  fold (u8 (Encode.MAX_TTL - lyr_ttl)) in Hw.
  unfold is_u8 in *. change (2 ^ 8) with 256 in *.
  destruct (Encode.forward (Encode.flags es)),
           (to_bool (Z.land (Encode.flags es) Encode.ENC_FLAG_TTL)); lia.
Qed.

(** C1: for every flag value and every 8-bit [lyr_ttl], [get_ttl] returns
    [lyr_ttl] when the forward bit (63) is set and the TTL-override bit (54)
    is clear, the stored [ttl] when both are set, [max (255 - lyr_ttl) 64]
    when both are clear, and [max ttl 64] when the forward bit is clear and
    the override bit is set. *)
Theorem get_ttl_cases (IpApi : Type) (es : Encode.EncState IpApi)
    (lyr_ttl : Z) :
  is_u8 lyr_ttl ->
  Encode.get_ttl es lyr_ttl =
    match Z.testbit (Encode.flags es) 63, Z.testbit (Encode.flags es) 54 with
    | true, false => lyr_ttl
    | true, true => Encode.ttl es
    | false, false => Z.max (255 - lyr_ttl) 64
    | false, true => Z.max (Encode.ttl es) 64
    end.
Proof.
  intros Hl. unfold Encode.get_ttl.
  rewrite forward_testbit, ttl_flag_testbit.
  destruct (Z.testbit (Encode.flags es) 63),
           (Z.testbit (Encode.flags es) 54); try reflexivity.
  - apply floor_max.
  - cbv zeta. rewrite floor_max. f_equal.
    unfold u8, Encode.MAX_TTL. apply wrap_small.
    unfold is_u8 in Hl. change (2 ^ 8) with 256 in *. lia.
Qed.


Lemma get_ttl_cases_witness :
  is_u8 200 /\
  Encode.get_ttl (Encode.EncState_new tt Encode.ENC_FLAG_TTL 6 10 0) 200 = 64.
Proof.
  assert (H : is_u8 200) by (unfold is_u8; lia).
  split; [exact H|].
  exact (get_ttl_cases unit
           (Encode.EncState_new tt Encode.ENC_FLAG_TTL 6 10 0) 200 H).
Defined.

(** [get_ttl] on the four flag combinations, at and around the floor. *)
Example get_ttl_forward_plain :
  Encode.get_ttl (Encode.EncState_new tt Encode.ENC_FLAG_FWD 6 10 0) 3 = 3.
Proof. reflexivity. Qed.

Example get_ttl_forward_override :
  Encode.get_ttl
    (Encode.EncState_new tt
       (Z.lor Encode.ENC_FLAG_FWD Encode.ENC_FLAG_TTL) 6 10 0) 3 = 10.
Proof. reflexivity. Qed.

Example get_ttl_reverse_plain :
  map (Encode.get_ttl (Encode.EncState_new tt 0 6 10 0)) [0; 64; 191; 192; 255]
  = [255; 191; 64; 64; 64].
Proof. reflexivity. Qed.

Example get_ttl_reverse_override :
  map (fun t => Encode.get_ttl
                  (Encode.EncState_new tt Encode.ENC_FLAG_TTL 6 t 0) 128)
      [0; 63; 64; 65; 255]
  = [64; 64; 64; 65; 255].
Proof. reflexivity. Qed.

(** C7: [next_proto_set] is true exactly when [next_proto] is not the
    sentinel [0xFF], [ethertype_set] exactly when [next_ethertype] is not
    [0]; the constructor sets [next_ethertype] to [0], so [ethertype_set] is
    false on a new [EncState], and sets [next_proto] from its protocol
    argument (the 16-bit argument reduced to the 8 bits of the member). *)
Theorem enc_state_sentinels (IpApi : Type) :
  (forall es : Encode.EncState IpApi,
      Encode.next_proto_set es = true <-> Encode.next_proto es <> 0xFF) /\
  (forall es : Encode.EncState IpApi,
      Encode.ethertype_set es = true <-> Encode.next_ethertype es <> 0) /\
  (forall (api : IpApi) (f pr t data_size : Z),
      let es := Encode.EncState_new api f pr t data_size in
      Encode.next_ethertype es = 0 /\
      Encode.ethertype_set es = false /\
      Encode.next_proto es = pr mod 2 ^ 8).
Proof.
  split; [|split].
  - intros es. unfold Encode.next_proto_set, Encode.ENC_PROTO_UNSET.
    rewrite negb_true_iff. apply Z.eqb_neq.
  - intros es. unfold Encode.ethertype_set.
    rewrite negb_true_iff. apply Z.eqb_neq.
  - intros api f pr t data_size es. repeat split.
Qed.

(** A protocol argument that fits the member is stored as it is; one that
    does not is cut to its low 8 bits, so [0x1FF] is stored as the
    sentinel. *)
Lemma EncState_new_next_proto (IpApi : Type) (api : IpApi)
    (f pr t data_size : Z) :
  is_u8 pr ->
  Encode.next_proto (Encode.EncState_new api f pr t data_size) = pr.
Proof. intros H. simpl. now apply wrap_small. Qed.

Example EncState_new_wide_proto :
  Encode.next_proto_set (Encode.EncState_new tt 0 0x1FF 64 0) = false.
Proof. reflexivity. Qed.

(** C8: [ENC_FLAG_VAL] is exactly the low 32 bits; the eleven structural
    flags are the single bits 63 down to 53, so each lies in the high half,
    they are pairwise distinct, share no bit with one another and none with
    [ENC_FLAG_VAL]. *)
Theorem encode_flags_layout :
  Encode.ENC_FLAG_VAL = Z.ones 32 /\
  Encode.structural_flags
    = map (fun k => 2 ^ k) [63; 62; 61; 60; 59; 58; 57; 56; 55; 54; 53] /\
  NoDup Encode.structural_flags /\
  ForallOrdPairs (fun f g => Z.land f g = 0) Encode.structural_flags /\
  Forall (fun f => Z.land f Encode.ENC_FLAG_VAL = 0 /\ is_u64 f)
    Encode.structural_flags.
Proof.
  split; [reflexivity|].
  split; [reflexivity|].
  split; [|split].
  - unfold Encode.structural_flags.
    repeat (constructor; [simpl; intuition discriminate|]).
    constructor.
  - unfold Encode.structural_flags.
    repeat (constructor; [repeat (constructor; [reflexivity|]); constructor|]).
    constructor.
  - unfold Encode.structural_flags, is_u64.
    repeat (constructor; [split; [reflexivity|split; [discriminate|reflexivity]]|]).
    constructor.
Qed.

(** ** [Buffer] *)

Lemma Buffer_new_size buf sz : Buf.size (Buf.Buffer_new buf sz) = 0.
Proof. reflexivity. Qed.

(** A request that fits is granted: the size grows by [len] and the write
    cursor moves back by [len]. *)
Lemma allocate_fits len b :
  0 <= len -> Buf.max_len b < 2 ^ 32 ->
  len <= Buf.max_len b - Buf.end_ b -> 0 <= Buf.end_ b ->
  Buf.allocate len b =
    (true,
     {| Buf.base := Buf.base b - len;
        Buf.off := Buf.off b;
        Buf.end_ := Buf.end_ b + len;
        Buf.max_len := Buf.max_len b |}).
Proof.
  intros Hlen Hmax Hfit Hend. unfold Buf.allocate.
  assert (Hw : u32 (Buf.end_ b + len) = Buf.end_ b + len)
    by (apply wrap_small; lia).
  rewrite Hw.
  destruct (Z.gtb_spec (Buf.end_ b + len) (Buf.max_len b)); [lia|reflexivity].
Qed.

(** A request that does not fit is refused, with the buffer as it was, as
    long as [end + len] is below [2^32]. *)
Lemma allocate_exceeds len b :
  0 <= Buf.end_ b + len < 2 ^ 32 ->
  len > Buf.max_len b - Buf.end_ b ->
  Buf.allocate len b = (false, b).
Proof.
  intros Hsum Hover. unfold Buf.allocate.
  rewrite (wrap_small 32 _ Hsum : u32 _ = _).
  destruct (Z.gtb_spec (Buf.end_ b + len) (Buf.max_len b)); [reflexivity|lia].
Qed.

(** A refused request changes nothing; a granted one moves [base] by
    [len] whatever the sum does. *)
Lemma allocate_refused len b b' :
  Buf.allocate len b = (false, b') -> b' = b.
Proof.
  unfold Buf.allocate.
  destruct (u32 (Buf.end_ b + len) >? Buf.max_len b); congruence.
Qed.

Lemma allocate_granted len b b' :
  Buf.allocate len b = (true, b') ->
  Buf.base b' = Buf.base b - len /\
  Buf.end_ b' = u32 (Buf.end_ b + len) /\
  Buf.end_ b' <= Buf.max_len b /\
  Buf.off b' = Buf.off b /\ Buf.max_len b' = Buf.max_len b.
Proof.
  unfold Buf.allocate.
  destruct (Z.gtb_spec (u32 (Buf.end_ b + len)) (Buf.max_len b)) as [Hgt|Hle];
    intros E; inversion E; subst; simpl.
  repeat split; lia.
Qed.

Lemma step_max_len b c : Buf.max_len (Buf.step b c) = Buf.max_len b.
Proof.
  destruct c as [len|]; simpl; [|reflexivity].
  unfold Buf.allocate.
  destruct (u32 (Buf.end_ b + len) >? Buf.max_len b); reflexivity.
Qed.

(** [consumed <= capacity] survives every call, wrapped or not. *)
Lemma step_within_capacity b c :
  Buf.within_capacity b -> Buf.within_capacity (Buf.step b c).
Proof.
  unfold Buf.within_capacity. intros H.
  destruct c as [len|]; simpl.
  - unfold Buf.allocate.
    destruct (Z.gtb_spec (u32 (Buf.end_ b + len)) (Buf.max_len b)); simpl.
    + exact H.
    + pose proof (wrap_range 32 (Buf.end_ b + len) ltac:(lia)) as Hw.
      fold (u32 (Buf.end_ b + len)) in Hw. lia.
  - lia.
Qed.

Lemma reachable_within_capacity buf sz b :
  0 <= sz -> Buf.reachable buf sz b ->
  Buf.within_capacity b /\ Buf.max_len b = sz.
Proof.
  intros Hsz Hr. induction Hr as [|b c Hr [IHc IHm] Hc].
  - unfold Buf.within_capacity. simpl. lia.
  - split.
    + now apply step_within_capacity.
    + now rewrite step_max_len.
Qed.

(** The anchor [base + end = buf + size + 1] survives [clear], a refused
    [allocate], and a granted [allocate] whose sum does not wrap. *)
Lemma step_anchored buf sz b c :
  0 <= Buf.end_ b -> Buf.call_ok c -> Buf.no_wrap b c ->
  Buf.anchored buf sz b -> Buf.anchored buf sz (Buf.step b c).
Proof.
  unfold Buf.anchored. intros Hend Hc Hnw H.
  destruct c as [len|]; simpl in *.
  - unfold Buf.allocate.
    destruct (u32 (Buf.end_ b + len) >? Buf.max_len b); simpl.
    + exact H.
    + unfold is_u32 in Hc.
      rewrite (wrap_small 32 (Buf.end_ b + len) ltac:(lia) : u32 _ = _).
      lia.
  - lia.
Qed.

(** On an anchored buffer [clear] gives back the buffer as constructed. *)
Lemma clear_anchored buf sz b :
  Buf.anchored buf sz b -> Buf.max_len b = sz ->
  Buf.clear b = Buf.Buffer_new buf sz.
Proof.
  unfold Buf.anchored, Buf.clear, Buf.Buffer_new. intros Ha Hm.
  now rewrite Ha, Hm.
Qed.

(** Both invariants hold after construction. *)
Lemma Buffer_new_invariants buf sz :
  0 <= sz ->
  Buf.within_capacity (Buf.Buffer_new buf sz) /\
  Buf.anchored buf sz (Buf.Buffer_new buf sz).
Proof.
  intros Hsz. unfold Buf.within_capacity, Buf.anchored. simpl. lia.
Qed.

(** Calls that do not wrap keep both invariants, and [clear] after them
    gives back the buffer as constructed. *)
Lemma run_no_wrap_invariants buf sz cs b :
  Buf.within_capacity b -> Buf.anchored buf sz b ->
  Buf.calls_no_wrap b cs ->
  Buf.within_capacity (Buf.run cs b) /\ Buf.anchored buf sz (Buf.run cs b).
Proof.
  revert b. induction cs as [|c cs IH]; intros b Hw Ha Hcs; simpl.
  - split; assumption.
  - destruct Hcs as (Hc & Hn & Hcs).
    apply IH.
    + now apply step_within_capacity.
    + apply step_anchored; try assumption. apply Hw.
    + exact Hcs.
Qed.

Lemma run_max_len cs b : Buf.max_len (Buf.run cs b) = Buf.max_len b.
Proof.
  revert b. induction cs as [|c cs IH]; intros b; simpl.
  - reflexivity.
  - now rewrite IH, step_max_len.
Qed.

Lemma clear_after_no_wrap buf sz cs :
  0 <= sz ->
  Buf.calls_no_wrap (Buf.Buffer_new buf sz) cs ->
  Buf.clear (Buf.run cs (Buf.Buffer_new buf sz)) = Buf.Buffer_new buf sz.
Proof.
  intros Hsz Hcs.
  destruct (Buffer_new_invariants buf sz Hsz) as [Hw Ha].
  destruct (run_no_wrap_invariants buf sz cs _ Hw Ha Hcs) as [_ Ha'].
  apply clear_anchored; [exact Ha'|].
  now rewrite run_max_len.
Qed.

(** Two layers that fit, one that does not, then [clear]. *)
Example buffer_three_requests (buf : Z) :
  let b0 := Buf.Buffer_new buf 60 in
  let r1 := Buf.allocate 20 b0 in
  let r2 := Buf.allocate 40 (snd r1) in
  let r3 := Buf.allocate 1 (snd r2) in
  (fst r1, fst r2, fst r3) = (true, true, false) /\
  map Buf.size [snd r1; snd r2; snd r3] = [20; 60; 60] /\
  snd r3 = snd r2 /\
  Buf.base (snd r2) = buf + 1 /\
  Buf.clear (snd r3) = b0.
Proof.
  simpl. repeat split.
  - lia.
  - unfold Buf.clear, Buf.Buffer_new. simpl.
    change (u32 60) with 60. f_equal. lia.
Qed.

(** Two addresses [2^32] apart differ, also as 64-bit patterns. *)
Lemma ptr64_apart p : Buf.ptr64 (p - 2 ^ 32) <> Buf.ptr64 p.
Proof.
  unfold Buf.ptr64, wrap. intros H.
  assert (E : (p - (p - 2 ^ 32)) mod 2 ^ 64 = 0).
  { rewrite Zminus_mod, H, Z.sub_diag. reflexivity. }
  replace (p - (p - 2 ^ 32)) with (2 ^ 32) in E by lia.
  discriminate E.
Qed.

Lemma run_reachable buf sz cs b :
  Buf.reachable buf sz b -> Forall Buf.call_ok cs ->
  Buf.reachable buf sz (Buf.run cs b).
Proof.
  intros Hr Hcs. revert b Hr.
  induction Hcs as [|c cs Hc Hcs IH]; intros b Hr; simpl.
  - exact Hr.
  - apply IH. now constructor.
Qed.

Lemma max_u32_ok : Buf.call_ok (Buf.Allocate 0xFFFFFFFF).
Proof. simpl. unfold is_u32. lia. Qed.

Lemma ten_ok : Buf.call_ok (Buf.Allocate 10).
Proof. simpl. unfold is_u32. lia. Qed.

Lemma wrapping_calls_reachable (buf : Z) :
  Buf.reachable buf 100
    (Buf.run [Buf.Allocate 10; Buf.Allocate 0xFFFFFFFF]
       (Buf.Buffer_new buf 100)).
Proof.
  apply run_reachable; [constructor|].
  apply Forall_cons; [exact ten_ok|].
  apply Forall_cons; [exact max_u32_ok|].
  apply Forall_nil.
Qed.

(** C2: a request larger than the remaining capacity is granted when
    [end + len] wraps.  On a buffer of capacity 100 holding 10 bytes, 90
    bytes remain; [allocate(0xFFFFFFFF)] computes [end + len = 9] in 32
    bits, returns success, sets the size to 9 and moves the write cursor
    back by [0xFFFFFFFF]. *)
Theorem allocate_grants_wrapped_request (buf : Z) :
  let b := snd (Buf.allocate 10 (Buf.Buffer_new buf 100)) in
  Buf.reachable buf 100 b /\
  is_u32 0xFFFFFFFF /\
  0xFFFFFFFF > Buf.max_len b - Buf.end_ b /\
  Buf.allocate 0xFFFFFFFF b =
    (true,
     {| Buf.base := Buf.base b - 0xFFFFFFFF;
        Buf.off := 0;
        Buf.end_ := 9;
        Buf.max_len := 100 |}) /\
  Buf.size (snd (Buf.allocate 0xFFFFFFFF b)) = Buf.size b - 1.
Proof.
  intros b. subst b.
  split; [|split; [|split; [|split]]].
  - apply (Buf.reach_step buf 100 _ (Buf.Allocate 10)).
    + constructor.
    + exact ten_ok.
  - unfold is_u32. lia.
  - reflexivity.
  - reflexivity.
  - reflexivity.
Qed.

(** C3: the anchor [base + end = buf + size + 1] is lost by a granted
    [allocate] whose sum wraps.  After [allocate(10)] and
    [allocate(0xFFFFFFFF)] on a buffer of capacity 100 the state is
    reachable and within capacity, and [base + end] lies [2^32] below
    [buf + size + 1]. *)
Theorem anchor_lost_by_wrapped_allocate (buf : Z) :
  let b := Buf.run [Buf.Allocate 10; Buf.Allocate 0xFFFFFFFF]
             (Buf.Buffer_new buf 100) in
  Buf.reachable buf 100 b /\
  Buf.within_capacity b /\
  Buf.base b + Buf.end_ b = buf + 100 + 1 - 2 ^ 32 /\
  ~ Buf.anchored buf 100 b /\
  Buf.ptr64 (Buf.base b + Buf.end_ b) <> Buf.ptr64 (buf + 100 + 1).
Proof.
  intros b.
  assert (Hsum : Buf.base b + Buf.end_ b = buf + 100 + 1 - 2 ^ 32).
  { subst b. simpl. change (u32 4294967305) with 9. lia. }
  split; [|split; [|split; [|split]]].
  - apply wrapping_calls_reachable.
  - apply (reachable_within_capacity buf 100); [lia|].
    apply wrapping_calls_reachable.
  - exact Hsum.
  - unfold Buf.anchored. rewrite Hsum. lia.
  - rewrite Hsum. apply ptr64_apart.
Qed.

(** C4: [clear] on a reachable buffer whose anchor was lost does not give
    back the write cursor of construction.  After [allocate(10)] and
    [allocate(0xFFFFFFFF)] on a buffer of capacity 100, [clear] leaves
    size 0 and [off] 0 but a [base] that lies [2^32] below
    [buf + size + 1]. *)
Theorem clear_after_wrapped_allocate (buf : Z) :
  let b := Buf.run [Buf.Allocate 10; Buf.Allocate 0xFFFFFFFF]
             (Buf.Buffer_new buf 100) in
  Buf.reachable buf 100 b /\
  Buf.size (Buf.clear b) = 0 /\
  Buf.off (Buf.clear b) = 0 /\
  Buf.base (Buf.clear b) = Buf.base (Buf.Buffer_new buf 100) - 2 ^ 32 /\
  Buf.clear b <> Buf.Buffer_new buf 100 /\
  Buf.ptr64 (Buf.base (Buf.clear b))
    <> Buf.ptr64 (Buf.base (Buf.Buffer_new buf 100)).
Proof.
  intros b.
  assert (Hbase : Buf.base (Buf.clear b)
                  = Buf.base (Buf.Buffer_new buf 100) - 2 ^ 32).
  { subst b. simpl. change (u32 4294967305) with 9. lia. }
  split; [|split; [|split; [|split; [|split]]]].
  - apply wrapping_calls_reachable.
  - reflexivity.
  - reflexivity.
  - exact Hbase.
  - intros E. rewrite E in Hbase. lia.
  - rewrite Hbase. apply ptr64_apart.
Qed.

(** ** [SnortData] *)

Lemma PktType_val_range t : 0 <= Decode.PktType_val t < 7.
Proof. destruct t; simpl; unfold Decode.PKT_TYPE_UNKOWN, Decode.PKT_TYPE_IP,
  Decode.PKT_TYPE_TCP, Decode.PKT_TYPE_UDP, Decode.PKT_TYPE_ICMP4,
  Decode.PKT_TYPE_ICMP6, Decode.PKT_TYPE_ARP; lia.
Qed.

Lemma PktType_of_val_val t :
  Decode.PktType_of_val (Decode.PktType_val t) = Some t.
Proof. destruct t; reflexivity. Qed.

(** A value below 8 has no bit above position 2. *)
Lemma testbit_above_mask v i : 0 <= v < 8 -> 2 < i -> Z.testbit v i = false.
Proof.
  intros Hv Hi.
  rewrite <- (Z.mod_small v (2 ^ 3)) by (change (2 ^ 3) with 8; lia).
  apply Z.mod_pow2_bits_high. lia.
Qed.

(** A value below 8 is its own low three bits. *)
Lemma land_mask_small v : 0 <= v < 8 -> Z.land v Decode.PKT_TYPE_MASK = v.
Proof.
  intros Hv. change Decode.PKT_TYPE_MASK with (Z.ones 3).
  rewrite Z.land_ones by lia. apply Z.mod_small.
  change (2 ^ 3) with 8. lia.
Qed.

(** The low three bits of the stored value are the low three bits of what
    was computed. *)
Lemma land_mask_u16 x :
  Z.land (u16 x) Decode.PKT_TYPE_MASK = Z.land x Decode.PKT_TYPE_MASK.
Proof.
  unfold u16, wrap. rewrite <- Z.land_ones by lia.
  rewrite <- Z.land_assoc. reflexivity.
Qed.

(** The bits of [decode_flags] after [set_pkt_type]. *)
Lemma set_pkt_type_bits (IpApi MplsHdr : Type)
    (s : Decode.SnortData IpApi MplsHdr) (v : Decode.PktType) (i : Z) :
  0 <= i ->
  Z.testbit (Decode.decode_flags (Decode.set_pkt_type v s)) i =
    if i <? 3 then Z.testbit (Decode.PktType_val v) i
    else if i <? 16 then Z.testbit (Decode.decode_flags s) i
    else false.
Proof.
  intros Hi. simpl Decode.decode_flags. unfold u16.
  rewrite wrap_testbit, Z.lor_spec, Z.land_spec, wrap_testbit by lia.
  rewrite Z.lnot_spec by assumption.
  pose proof (PktType_val_range v) as Hv.
  destruct (Z.ltb_spec i 3) as [Hlo|Hhi].
  - assert (Hm : Z.testbit Decode.PKT_TYPE_MASK i = true).
    { change Decode.PKT_TYPE_MASK with (Z.ones 3).
      apply Z.ones_spec_low. lia. }
    rewrite Hm.
    destruct (Z.ltb_spec i 16); [|lia].
    simpl. now rewrite andb_false_r.
  - assert (Hm : Z.testbit Decode.PKT_TYPE_MASK i = false).
    { change Decode.PKT_TYPE_MASK with (Z.ones 3).
      apply Z.ones_spec_high. lia. }
    rewrite Hm, (testbit_above_mask (Decode.PktType_val v) i) by lia.
    destruct (i <? 16); [|reflexivity].
    simpl. now rewrite andb_true_r, orb_false_r.
Qed.

(** [set_pkt_type] keeps every bit of a 16-bit mask that lies outside the
    packet type, so the decode flags read the same before and after. *)
Lemma set_pkt_type_keeps_mask (IpApi MplsHdr : Type)
    (s : Decode.SnortData IpApi MplsHdr) (v : Decode.PktType) (m : Z) :
  is_u16 m -> Z.land m Decode.PKT_TYPE_MASK = 0 ->
  Z.land (Decode.decode_flags (Decode.set_pkt_type v s)) m
  = Z.land (Decode.decode_flags s) m.
Proof.
  intros Hm Hdisj. apply Z.bits_inj'. intros i Hi.
  rewrite !Z.land_spec, set_pkt_type_bits by assumption.
  destruct (Z.ltb_spec i 3) as [Hlo|Hhi].
  - assert (E : Z.testbit m i = false).
    { assert (B : Z.testbit (Z.land m Decode.PKT_TYPE_MASK) i = false)
        by (rewrite Hdisj; apply Z.bits_0).
      rewrite Z.land_spec in B.
      change Decode.PKT_TYPE_MASK with (Z.ones 3) in B.
      rewrite Z.ones_spec_low, andb_true_r in B by lia. exact B. }
    now rewrite E, !andb_false_r.
  - destruct (Z.ltb_spec i 16) as [Hin|Hout]; [reflexivity|].
    assert (E : Z.testbit m i = false).
    { unfold is_u16 in Hm. rewrite <- (Z.mod_small _ _ Hm).
      apply Z.mod_pow2_bits_high. lia. }
    now rewrite E, !andb_false_r.
Qed.

Lemma set_pkt_type_keeps_decode_flags (IpApi MplsHdr : Type)
    (s : Decode.SnortData IpApi MplsHdr) (v : Decode.PktType) :
  Forall (fun m =>
            Z.land (Decode.decode_flags (Decode.set_pkt_type v s)) m
            = Z.land (Decode.decode_flags s) m)
    Decode.decode_flag_bits.
Proof.
  unfold Decode.decode_flag_bits.
  repeat (constructor;
          [apply set_pkt_type_keeps_mask;
           [unfold is_u16; split; [discriminate|reflexivity] | reflexivity]|]).
  constructor.
Qed.

(** C5: for every state and every packet type [v] of the seven
    enumerators, [get_pkt_type] after [set_pkt_type v] returns [v], and
    every bit of the 16-bit [decode_flags] above position 2 is the same
    before and after the call. *)
Theorem set_get_pkt_type (IpApi MplsHdr : Type)
    (s : Decode.SnortData IpApi MplsHdr) (v : Decode.PktType) :
  is_u16 (Decode.decode_flags s) ->
  Decode.get_pkt_type (Decode.set_pkt_type v s) = Decode.PktType_val v /\
  Decode.PktType_of_val (Decode.get_pkt_type (Decode.set_pkt_type v s))
    = Some v /\
  In v Decode.all_PktType /\
  (forall i, 2 < i ->
     Z.testbit (Decode.decode_flags (Decode.set_pkt_type v s)) i
     = Z.testbit (Decode.decode_flags s) i) /\
  is_u16 (Decode.decode_flags (Decode.set_pkt_type v s)).
Proof.
  intros Hdf.
  assert (Hget : Decode.get_pkt_type (Decode.set_pkt_type v s)
                 = Decode.PktType_val v).
  { pose proof (PktType_val_range v) as Hv.
    unfold Decode.get_pkt_type. simpl Decode.decode_flags.
    rewrite land_mask_u16, Z.land_lor_distr_l, <- Z.land_assoc.
    change (Z.land (Z.lnot Decode.PKT_TYPE_MASK) Decode.PKT_TYPE_MASK) with 0.
    rewrite Z.land_0_r, Z.lor_0_l, land_mask_u16.
    rewrite land_mask_small by lia.
    apply wrap_small. change (2 ^ 8) with 256. lia. }
  split; [exact Hget|].
  split; [rewrite Hget; apply PktType_of_val_val|].
  split; [destruct v; simpl; tauto|].
  split.
  - intros i Hi. rewrite set_pkt_type_bits by lia.
    destruct (Z.ltb_spec i 3); [lia|].
    destruct (Z.ltb_spec i 16); [reflexivity|].
    symmetry. unfold is_u16 in Hdf.
    rewrite <- (Z.mod_small _ _ Hdf).
    apply Z.mod_pow2_bits_high. lia.
  - simpl Decode.decode_flags. apply (wrap_range 16). lia.
Qed.

Lemma set_get_pkt_type_witness :
  is_u16 0x0FFD /\
  Decode.get_pkt_type
    (Decode.set_pkt_type Decode.TCP
       (Decode.Build_SnortData unit unit 1 2 3 4 5 0x0FFD tt tt))
  = Decode.PKT_TYPE_TCP.
Proof.
  assert (H : is_u16 0x0FFD) by (unfold is_u16; lia).
  split; [exact H|].
  exact (proj1 (set_get_pkt_type unit unit
                  (Decode.Build_SnortData unit unit 1 2 3 4 5 0x0FFD tt tt)
                  Decode.TCP H)).
Defined.

(** [set_pkt_type] on a field with every flag set: the type changes, the
    flags stay. *)
Example set_pkt_type_keeps_flags :
  map (fun v => Decode.decode_flags
                  (Decode.set_pkt_type v
                     (Decode.Build_SnortData unit unit 0 0 0 0 0 0xFFFF tt tt)))
      Decode.all_PktType
  = [0xFFF8; 0xFFF9; 0xFFFA; 0xFFFB; 0xFFFC; 0xFFFD; 0xFFFE].
Proof. reflexivity. Qed.

(** [set_pkt_type] writes [decode_flags] only. *)
Lemma set_pkt_type_frame (IpApi MplsHdr : Type)
    (s : Decode.SnortData IpApi MplsHdr) (v : Decode.PktType) :
  Decode.tcph (Decode.set_pkt_type v s) = Decode.tcph s /\
  Decode.udph (Decode.set_pkt_type v s) = Decode.udph s /\
  Decode.icmph (Decode.set_pkt_type v s) = Decode.icmph s /\
  Decode.sp (Decode.set_pkt_type v s) = Decode.sp s /\
  Decode.dp (Decode.set_pkt_type v s) = Decode.dp s /\
  Decode.ip_api (Decode.set_pkt_type v s) = Decode.ip_api s /\
  Decode.mplsHdr (Decode.set_pkt_type v s) = Decode.mplsHdr s.
Proof. repeat split. Qed.

(** The members the [memset] of [reset] covers: all those declared before
    [ip_api], and neither [ip_api] nor [mplsHdr]. *)
Lemma reset_span :
  Decode.span Decode.M_tcph Decode.M_ip_api
  = [Decode.M_tcph; Decode.M_udph; Decode.M_icmph; Decode.M_sp; Decode.M_dp;
     Decode.M_decode_flags].
Proof. reflexivity. Qed.

(** Zeroing members other than [m] keeps a member [m] as it is; stated
    for the two members that are not integers. *)
Lemma memset_zero_keeps (IpApi MplsHdr : Type) (iz : IpApi) (mz : MplsHdr)
    (ms : list Decode.member) (s : Decode.SnortData IpApi MplsHdr) :
  (~ In Decode.M_ip_api ms ->
   Decode.ip_api (fold_left (Decode.zero_member IpApi MplsHdr iz mz) ms s)
   = Decode.ip_api s) /\
  (~ In Decode.M_mplsHdr ms ->
   Decode.mplsHdr (fold_left (Decode.zero_member IpApi MplsHdr iz mz) ms s)
   = Decode.mplsHdr s).
Proof.
  revert s. induction ms as [|m ms IH]; intros s; simpl.
  - split; reflexivity.
  - destruct (IH (Decode.zero_member IpApi MplsHdr iz mz s m)) as [IHi IHm].
    split; intros Hn.
    + rewrite IHi by tauto. destruct m; try reflexivity. tauto.
    + rewrite IHm by tauto. destruct m; try reflexivity. tauto.
Qed.

(** C6: for every state, [reset] leaves the three header references
    [tcph], [udph], [icmph], both ports and the packed [decode_flags] at
    zero, so that the packet type reads as unknown, and the [ip_api]
    member is the former one after its own [reset]. *)
Theorem reset_zeroes (IpApi MplsHdr : Type) (iz : IpApi) (mz : MplsHdr)
    (IpApi_reset : IpApi -> IpApi) (s : Decode.SnortData IpApi MplsHdr) :
  let s' := Decode.reset iz mz IpApi_reset s in
  Decode.tcph s' = 0 /\
  Decode.udph s' = 0 /\
  Decode.icmph s' = 0 /\
  Decode.sp s' = 0 /\
  Decode.dp s' = 0 /\
  Decode.decode_flags s' = 0 /\
  Decode.get_pkt_type s' = Decode.PktType_val Decode.UNKOWN /\
  Decode.PktType_of_val (Decode.get_pkt_type s') = Some Decode.UNKOWN /\
  Decode.ip_api s' = IpApi_reset (Decode.ip_api s).
Proof.
  intros s'. subst s'. repeat split.
Qed.

(** [reset] on a state whose every member holds a sentinel other than
    zero. *)
Example reset_sentinels :
  Decode.reset 0%nat 0%nat S
    (Decode.Build_SnortData nat nat 0xDEAD 0xBEEF 0xCAFE 0xFFFF 0xFFFF 0xFFFF
       7%nat 9%nat)
  = Decode.Build_SnortData nat nat 0 0 0 0 0 0 8%nat 9%nat.
Proof. reflexivity. Qed.

(** C10: for every state, [reset] leaves [mplsHdr] as it was: the members
    the [memset] covers are those declared before [ip_api], [mplsHdr] is
    declared after it, and the reset of [ip_api] writes [ip_api] only. *)
Theorem reset_keeps_mplsHdr (IpApi MplsHdr : Type) (iz : IpApi) (mz : MplsHdr)
    (IpApi_reset : IpApi -> IpApi) (s : Decode.SnortData IpApi MplsHdr) :
  Decode.mplsHdr (Decode.reset iz mz IpApi_reset s) = Decode.mplsHdr s /\
  ~ In Decode.M_mplsHdr (Decode.span Decode.M_tcph Decode.M_ip_api) /\
  ~ In Decode.M_ip_api (Decode.span Decode.M_tcph Decode.M_ip_api) /\
  Decode.from Decode.M_ip_api Decode.members
    = [Decode.M_ip_api; Decode.M_mplsHdr] /\
  Decode.mplsHdr (Decode.memset_zero iz mz Decode.M_tcph Decode.M_ip_api s)
    = Decode.mplsHdr s /\
  (forall t : Decode.SnortData IpApi MplsHdr,
     Decode.mplsHdr (Decode.reset_ip_api IpApi_reset t) = Decode.mplsHdr t).
Proof.
  assert (Hm : ~ In Decode.M_mplsHdr (Decode.span Decode.M_tcph Decode.M_ip_api))
    by (rewrite reset_span; simpl; intuition discriminate).
  assert (Hi : ~ In Decode.M_ip_api (Decode.span Decode.M_tcph Decode.M_ip_api))
    by (rewrite reset_span; simpl; intuition discriminate).
  assert (Hk : Decode.mplsHdr
                 (Decode.memset_zero iz mz Decode.M_tcph Decode.M_ip_api s)
               = Decode.mplsHdr s)
    by (apply (memset_zero_keeps IpApi MplsHdr iz mz); exact Hm).
  split; [|split; [|split; [|split; [|split]]]].
  - unfold Decode.reset. simpl Decode.mplsHdr. exact Hk.
  - exact Hm.
  - exact Hi.
  - reflexivity.
  - exact Hk.
  - intros t. reflexivity.
Qed.

(** ** Codec flags *)

(** A value that has the bits of a mask has the bits of any part of it. *)
Lemma has_flags_part cf m p :
  Z.land m p = p -> has_flags cf m -> has_flags cf p.
Proof.
  unfold has_flags. intros Hp Hm.
  rewrite <- Hp at 1. rewrite Z.land_assoc, Hm. exact Hp.
Qed.

(** C9: [CODEC_ENCAP_LAYER] is the bitwise or of [CODEC_SAVE_LAYER] and
    [CODEC_UNSURE_ENCAP], so a [codec_flags] value that has the combined
    flag has both the save-layer bit and the unsure-encapsulation bit. *)
Theorem encap_layer_has_both (cf : Z) :
  has_flags cf Decode.CODEC_ENCAP_LAYER ->
  Decode.CODEC_ENCAP_LAYER
    = Z.lor Decode.CODEC_SAVE_LAYER Decode.CODEC_UNSURE_ENCAP /\
  has_flags cf Decode.CODEC_SAVE_LAYER /\
  has_flags cf Decode.CODEC_UNSURE_ENCAP.
Proof.
  intros H. split; [reflexivity|]. split.
  - now apply (has_flags_part cf Decode.CODEC_ENCAP_LAYER).
  - now apply (has_flags_part cf Decode.CODEC_ENCAP_LAYER).
Qed.

Lemma encap_layer_has_both_witness :
  has_flags 0x0107 Decode.CODEC_ENCAP_LAYER /\
  has_flags 0x0107 Decode.CODEC_SAVE_LAYER /\
  has_flags 0x0107 Decode.CODEC_UNSURE_ENCAP.
Proof.
  assert (H : has_flags 0x0107 Decode.CODEC_ENCAP_LAYER) by reflexivity.
  split; [exact H|].
  exact (proj2 (encap_layer_has_both 0x0107 H)).
Defined.

(** Conversely the two bits together make the combined flag, and one of
    them alone does not. *)
Lemma both_bits_have_encap_layer (cf : Z) :
  has_flags cf Decode.CODEC_SAVE_LAYER ->
  has_flags cf Decode.CODEC_UNSURE_ENCAP ->
  has_flags cf Decode.CODEC_ENCAP_LAYER.
Proof.
  unfold has_flags. intros Hs Hu.
  change Decode.CODEC_ENCAP_LAYER
    with (Z.lor Decode.CODEC_SAVE_LAYER Decode.CODEC_UNSURE_ENCAP).
  now rewrite Z.land_lor_distr_r, Hs, Hu.
Qed.

Example save_layer_alone :
  has_flags Decode.CODEC_SAVE_LAYER Decode.CODEC_SAVE_LAYER /\
  ~ has_flags Decode.CODEC_SAVE_LAYER Decode.CODEC_UNSURE_ENCAP.
Proof. split; [reflexivity|discriminate]. Qed.

(** * Further properties *)

(** ** Direction and time to live *)

Lemma land_pow2_zero m k :
  0 <= k -> Z.land m (2 ^ k) = 0 <-> Z.testbit m k = false.
Proof.
  intros Hk. rewrite land_pow2 by assumption.
  assert (0 < 2 ^ k) by now apply Z.pow_pos_nonneg.
  destruct (Z.testbit m k); split; intros; try reflexivity; try lia;
    discriminate.
Qed.

(** X1: the direction is decided by [ENC_FLAG_FWD] alone.  Setting,
    clearing or toggling in [f] the bits of any [m] that does not contain
    [ENC_FLAG_FWD] leaves [forward] and [reverse] as they were. *)
Theorem direction_ignores_other_bits (f m : Z) :
  Z.land m Encode.ENC_FLAG_FWD = 0 ->
  Encode.forward (Z.lor f m) = Encode.forward f /\
  Encode.forward (Z.land f (Z.lnot m)) = Encode.forward f /\
  Encode.forward (Z.lxor f m) = Encode.forward f /\
  Encode.reverse (Z.lor f m) = Encode.reverse f /\
  Encode.reverse (Z.land f (Z.lnot m)) = Encode.reverse f /\
  Encode.reverse (Z.lxor f m) = Encode.reverse f.
Proof.
  intros Hm.
  change Encode.ENC_FLAG_FWD with (2 ^ 63) in Hm.
  apply land_pow2_zero in Hm; [|lia].
  unfold Encode.reverse. rewrite !forward_testbit.
  rewrite Z.lor_spec, Z.land_spec, Z.lxor_spec, Z.lnot_spec, Hm by lia.
  simpl. rewrite orb_false_r, andb_true_r, xorb_false_r.
  repeat split.
Qed.

Lemma direction_ignores_other_bits_witness :
  Z.land (Z.lor Encode.ENC_FLAG_VAL Encode.ENC_FLAG_TTL) Encode.ENC_FLAG_FWD
    = 0 /\
  Encode.forward
    (Z.lor Encode.ENC_FLAG_FWD
       (Z.lor Encode.ENC_FLAG_VAL Encode.ENC_FLAG_TTL))
    = Encode.forward Encode.ENC_FLAG_FWD.
Proof.
  assert (H : Z.land (Z.lor Encode.ENC_FLAG_VAL Encode.ENC_FLAG_TTL)
                Encode.ENC_FLAG_FWD = 0) by reflexivity.
  split; [exact H|].
  exact (proj1 (direction_ignores_other_bits Encode.ENC_FLAG_FWD
                  (Z.lor Encode.ENC_FLAG_VAL Encode.ENC_FLAG_TTL) H)).
Defined.

(** X2: in the reverse direction [get_ttl] never returns less than
    [MIN_TTL]: for 8-bit inputs the result lies between 64 and 255,
    with or without the override. *)
Theorem get_ttl_reverse_floor (IpApi : Type) (es : Encode.EncState IpApi)
    (lyr_ttl : Z) :
  is_u8 lyr_ttl -> is_u8 (Encode.ttl es) ->
  Encode.reverse (Encode.flags es) = true ->
  Encode.MIN_TTL <= Encode.get_ttl es lyr_ttl <= Encode.MAX_TTL.
Proof.
  intros Hl Ht Hr. unfold Encode.reverse in Hr.
  apply negb_true_iff in Hr.
  unfold Encode.get_ttl. rewrite Hr. cbv zeta. rewrite floor_max.
  pose proof (wrap_range 8 (Encode.MAX_TTL - lyr_ttl) ltac:(lia)) as Hw.
  fold (u8 (Encode.MAX_TTL - lyr_ttl)) in Hw.
  unfold is_u8, Encode.MIN_TTL, Encode.MAX_TTL in *.
  change (2 ^ 8) with 256 in *.
  destruct (to_bool (Z.land (Encode.flags es) Encode.ENC_FLAG_TTL)); lia.
Qed.

Lemma get_ttl_reverse_floor_witness :
  is_u8 250 /\ is_u8 3 /\
  Encode.reverse Encode.ENC_FLAG_SEQ = true /\
  Encode.MIN_TTL
    <= Encode.get_ttl (Encode.EncState_new tt Encode.ENC_FLAG_SEQ 6 3 0) 250
    <= Encode.MAX_TTL.
Proof.
  assert (H1 : is_u8 250) by (unfold is_u8; lia).
  assert (H2 : is_u8 3) by (unfold is_u8; lia).
  assert (H3 : Encode.reverse Encode.ENC_FLAG_SEQ = true) by reflexivity.
  split; [exact H1|]. split; [exact H2|]. split; [exact H3|].
  exact (get_ttl_reverse_floor unit
           (Encode.EncState_new tt Encode.ENC_FLAG_SEQ 6 3 0) 250 H1 H2 H3).
Defined.

(** X3: [get_ttl] reads two bits of the flags and nothing else of them:
    two states with the same [ttl] whose flags agree on [ENC_FLAG_FWD] and
    on [ENC_FLAG_TTL] give the same result, whatever the sequence
    adjustment value and the other flags are. *)
Theorem get_ttl_reads_two_flags (IpApi : Type)
    (es1 es2 : Encode.EncState IpApi) (lyr_ttl : Z) :
  Z.land (Encode.flags es1) Encode.ENC_FLAG_FWD
    = Z.land (Encode.flags es2) Encode.ENC_FLAG_FWD ->
  Z.land (Encode.flags es1) Encode.ENC_FLAG_TTL
    = Z.land (Encode.flags es2) Encode.ENC_FLAG_TTL ->
  Encode.ttl es1 = Encode.ttl es2 ->
  Encode.get_ttl es1 lyr_ttl = Encode.get_ttl es2 lyr_ttl.
Proof.
  intros Hf Ht Httl. unfold Encode.get_ttl, Encode.forward.
  now rewrite Hf, Ht, Httl.
Qed.

Lemma get_ttl_reads_two_flags_witness :
  Encode.get_ttl
    (Encode.EncState_new tt
       (Z.lor Encode.ENC_FLAG_FWD (Z.lor Encode.ENC_FLAG_PSH 0x1234)) 6 9 40)
    77
  = Encode.get_ttl (Encode.EncState_new tt Encode.ENC_FLAG_FWD 17 9 0) 77.
Proof.
  exact (get_ttl_reads_two_flags unit
           (Encode.EncState_new tt
              (Z.lor Encode.ENC_FLAG_FWD (Z.lor Encode.ENC_FLAG_PSH 0x1234))
              6 9 40)
           (Encode.EncState_new tt Encode.ENC_FLAG_FWD 17 9 0)
           77 eq_refl eq_refl eq_refl).
Defined.

(** X4: without the override, answering in the reverse direction twice
    gives back the layer's time to live, as long as neither step meets
    the floor, that is for a value from 64 to 191. *)
Theorem get_ttl_reverse_twice (IpApi : Type) (es : Encode.EncState IpApi)
    (lyr_ttl : Z) :
  Encode.reverse (Encode.flags es) = true ->
  Z.land (Encode.flags es) Encode.ENC_FLAG_TTL = 0 ->
  64 <= lyr_ttl <= 191 ->
  Encode.get_ttl es (Encode.get_ttl es lyr_ttl) = lyr_ttl.
Proof.
  intros Hr Ht Hl. unfold Encode.reverse in Hr.
  apply negb_true_iff in Hr.
  assert (Hone : forall x, 64 <= x <= 191 ->
                 Encode.get_ttl es x = 255 - x).
  { intros x Hx. unfold Encode.get_ttl. rewrite Hr, Ht. cbv zeta.
    rewrite floor_max. unfold u8, Encode.MAX_TTL.
    rewrite wrap_small by (change (2 ^ 8) with 256; lia).
    change (to_bool 0) with false. cbv iota. lia. }
  rewrite (Hone lyr_ttl Hl), Hone by lia. lia.
Qed.

Lemma get_ttl_reverse_twice_witness :
  64 <= 100 <= 191 /\
  Encode.get_ttl (Encode.EncState_new tt 0 6 0 0)
    (Encode.get_ttl (Encode.EncState_new tt 0 6 0 0) 100) = 100.
Proof.
  assert (H : 64 <= 100 <= 191) by lia.
  split; [exact H|].
  exact (get_ttl_reverse_twice unit (Encode.EncState_new tt 0 6 0 0) 100
           eq_refl eq_refl H).
Defined.

(** X5: the constructor keeps the low byte of its 16-bit protocol
    argument only, so a new [EncState] reads as having no next protocol
    exactly when that low byte is [0xFF]: for [0xFF] itself and also for
    [0x01FF], [0x88FF] and every other value ending in it. *)
Theorem new_next_proto_low_byte (IpApi : Type) (api : IpApi)
    (f pr t data_size : Z) :
  Encode.next_proto_set (Encode.EncState_new api f pr t data_size) = false
  <-> Z.land pr 0xFF = Encode.ENC_PROTO_UNSET.
Proof.
  unfold Encode.next_proto_set. simpl Encode.next_proto.
  unfold u8, wrap. rewrite <- Z.land_ones by lia.
  change (Z.ones 8) with 0xFF.
  rewrite negb_false_iff. apply Z.eqb_eq.
Qed.

(** ** The buffer without wrap-around *)

(** The 32-bit sum of a size within capacity and a 32-bit length. *)
Lemma u32_sum e len :
  0 <= e < 2 ^ 32 -> is_u32 len ->
  u32 (e + len) = if e + len <? 2 ^ 32 then e + len else e + len - 2 ^ 32.
Proof.
  intros He Hl. unfold is_u32 in Hl. unfold u32, wrap.
  destruct (Z.ltb_spec (e + len) (2 ^ 32)).
  - apply Z.mod_small. lia.
  - symmetry. apply (Z.mod_unique _ _ 1); lia.
Qed.

(** X6: the size of a buffer never exceeds its capacity.  In every state
    that [allocate] and [clear] calls with 32-bit lengths lead to, a
    wrapped sum included, [0 <= size() <= max_len] and [max_len] is the
    size given at construction. *)
Theorem size_within_capacity (buf sz : Z) (b : Buf.Buffer) :
  0 <= sz -> Buf.reachable buf sz b ->
  0 <= Buf.size b <= sz /\ Buf.max_len b = sz.
Proof.
  intros Hsz Hr.
  destruct (reachable_within_capacity buf sz b Hsz Hr) as [Hw Hm].
  unfold Buf.within_capacity in Hw. unfold Buf.size. lia.
Qed.

Lemma size_within_capacity_witness :
  0 <= 100 /\
  Buf.reachable 4096 100
    (Buf.run [Buf.Allocate 10; Buf.Allocate 0xFFFFFFFF]
       (Buf.Buffer_new 4096 100)) /\
  0 <= Buf.size (Buf.run [Buf.Allocate 10; Buf.Allocate 0xFFFFFFFF]
                   (Buf.Buffer_new 4096 100)) <= 100.
Proof.
  assert (H0 : 0 <= 100) by lia.
  pose proof (wrapping_calls_reachable 4096) as Hr.
  split; [exact H0|]. split; [exact Hr|].
  exact (proj1 (size_within_capacity 4096 100 _ H0 Hr)).
Defined.

(** X7: when [allocate] grants.  On a buffer within its capacity,
    [allocate(len)] returns true exactly when [end + len] is at most
    [max_len], or when [end + len] reaches [2^32] and what is left of it
    after the wrap is at most [max_len]. *)
Theorem allocate_verdict (len : Z) (b : Buf.Buffer) :
  Buf.within_capacity b -> Buf.max_len b < 2 ^ 32 -> is_u32 len ->
  fst (Buf.allocate len b) = true <->
  Buf.end_ b + len <= Buf.max_len b \/
  (2 ^ 32 <= Buf.end_ b + len /\
   Buf.end_ b + len - 2 ^ 32 <= Buf.max_len b).
Proof.
  unfold Buf.within_capacity. intros Hw Hm Hl.
  unfold Buf.allocate. rewrite u32_sum by (assumption || lia).
  unfold is_u32 in Hl.
  destruct (Z.ltb_spec (Buf.end_ b + len) (2 ^ 32)) as [Hlt|Hge].
  - destruct (Z.gtb_spec (Buf.end_ b + len) (Buf.max_len b)) as [Hgt|Hle];
      simpl; split; intros E; try reflexivity; try discriminate; lia.
  - destruct (Z.gtb_spec (Buf.end_ b + len - 2 ^ 32) (Buf.max_len b))
      as [Hgt|Hle];
      simpl; split; intros E; try reflexivity; try discriminate; lia.
Qed.

Lemma allocate_verdict_witness :
  Buf.within_capacity (Buf.Buffer_new 4096 100) /\
  Buf.max_len (Buf.Buffer_new 4096 100) < 2 ^ 32 /\
  is_u32 101 /\
  (fst (Buf.allocate 101 (Buf.Buffer_new 4096 100)) = true <->
   Buf.end_ (Buf.Buffer_new 4096 100) + 101
     <= Buf.max_len (Buf.Buffer_new 4096 100) \/
   (2 ^ 32 <= Buf.end_ (Buf.Buffer_new 4096 100) + 101 /\
    Buf.end_ (Buf.Buffer_new 4096 100) + 101 - 2 ^ 32
      <= Buf.max_len (Buf.Buffer_new 4096 100))).
Proof.
  assert (H1 : Buf.within_capacity (Buf.Buffer_new 4096 100))
    by (unfold Buf.within_capacity; simpl; lia).
  assert (H2 : Buf.max_len (Buf.Buffer_new 4096 100) < 2 ^ 32)
    by (simpl; lia).
  assert (H3 : is_u32 101) by (unfold is_u32; lia).
  split; [exact H1|]. split; [exact H2|]. split; [exact H3|].
  exact (allocate_verdict 101 (Buf.Buffer_new 4096 100) H1 H2 H3).
Defined.

(** X8: [allocate] when the sum does not wrap.  On a buffer within its
    capacity and for [end + len] below [2^32], a length of at most
    [max_len - end] is granted, adds [len] to the size, moves [base] back
    by [len] and keeps [off]; a greater length is refused and the buffer
    stays as it was. *)
Theorem allocate_no_wrap (len : Z) (b : Buf.Buffer) :
  Buf.within_capacity b -> 0 <= len -> Buf.end_ b + len < 2 ^ 32 ->
  Buf.allocate len b =
    if len <=? Buf.max_len b - Buf.end_ b then
      (true,
       {| Buf.base := Buf.base b - len;
          Buf.off := Buf.off b;
          Buf.end_ := Buf.size b + len;
          Buf.max_len := Buf.max_len b |})
    else (false, b).
Proof.
  unfold Buf.within_capacity. intros Hw Hl Hs.
  destruct (Z.leb_spec len (Buf.max_len b - Buf.end_ b)) as [Hfit|Hover].
  - unfold Buf.allocate, Buf.size.
    rewrite (wrap_small 32 (Buf.end_ b + len) ltac:(lia) : u32 _ = _).
    destruct (Z.gtb_spec (Buf.end_ b + len) (Buf.max_len b)); [lia|].
    reflexivity.
  - apply allocate_exceeds; lia.
Qed.

Lemma allocate_no_wrap_witness :
  Buf.within_capacity (Buf.Buffer_new 4096 100) /\
  0 <= 100 /\
  Buf.end_ (Buf.Buffer_new 4096 100) + 100 < 2 ^ 32 /\
  Buf.allocate 100 (Buf.Buffer_new 4096 100) =
    (true,
     {| Buf.base := 4097; Buf.off := 0; Buf.end_ := 100;
        Buf.max_len := 100 |}).
Proof.
  assert (H1 : Buf.within_capacity (Buf.Buffer_new 4096 100))
    by (unfold Buf.within_capacity; simpl; lia).
  assert (H2 : 0 <= 100) by lia.
  assert (H3 : Buf.end_ (Buf.Buffer_new 4096 100) + 100 < 2 ^ 32)
    by (simpl; lia).
  split; [exact H1|]. split; [exact H2|]. split; [exact H3|].
  exact (allocate_no_wrap 100 (Buf.Buffer_new 4096 100) H1 H2 H3).
Defined.

(** X9: two layers one after the other take what one layer of both
    lengths takes.  When [a + c] more bytes fit, [allocate(a)] followed by
    [allocate(c)] is granted and leaves the buffer that [allocate(a + c)]
    leaves. *)
Theorem allocate_twice (a c : Z) (b : Buf.Buffer) :
  0 <= a -> 0 <= c -> 0 <= Buf.end_ b -> Buf.max_len b < 2 ^ 32 ->
  Buf.end_ b + a + c <= Buf.max_len b ->
  fst (Buf.allocate a b) = true /\
  Buf.allocate c (snd (Buf.allocate a b)) = Buf.allocate (a + c) b /\
  fst (Buf.allocate (a + c) b) = true.
Proof.
  intros Ha Hc He Hm Hfit.
  rewrite (allocate_fits a b) by lia.
  rewrite (allocate_fits (a + c) b) by lia.
  simpl fst. simpl snd.
  rewrite allocate_fits by (simpl; lia).
  simpl. repeat split.
  f_equal. f_equal; lia.
Qed.

Lemma allocate_twice_witness :
  0 <= 20 /\ 0 <= 40 /\
  0 <= Buf.end_ (Buf.Buffer_new 4096 60) /\
  Buf.max_len (Buf.Buffer_new 4096 60) < 2 ^ 32 /\
  Buf.end_ (Buf.Buffer_new 4096 60) + 20 + 40
    <= Buf.max_len (Buf.Buffer_new 4096 60) /\
  Buf.allocate 40 (snd (Buf.allocate 20 (Buf.Buffer_new 4096 60)))
  = Buf.allocate (20 + 40) (Buf.Buffer_new 4096 60).
Proof.
  assert (H1 : 0 <= 20) by lia.
  assert (H2 : 0 <= 40) by lia.
  assert (H3 : 0 <= Buf.end_ (Buf.Buffer_new 4096 60)) by (simpl; lia).
  assert (H4 : Buf.max_len (Buf.Buffer_new 4096 60) < 2 ^ 32)
    by (simpl; lia).
  assert (H5 : Buf.end_ (Buf.Buffer_new 4096 60) + 20 + 40
               <= Buf.max_len (Buf.Buffer_new 4096 60)) by (simpl; lia).
  repeat (split; [assumption|]).
  exact (proj1 (proj2 (allocate_twice 20 40 (Buf.Buffer_new 4096 60)
                         H1 H2 H3 H4 H5))).
Defined.

(** X10: a zero-length [allocate] is granted and changes nothing, on an
    empty buffer and on a full one alike. *)
Theorem allocate_zero (b : Buf.Buffer) :
  Buf.within_capacity b -> Buf.max_len b < 2 ^ 32 ->
  Buf.allocate 0 b = (true, b).
Proof.
  unfold Buf.within_capacity. intros Hw Hm.
  rewrite allocate_fits by lia.
  destruct b as [ba o e m]. simpl. f_equal. f_equal; lia.
Qed.

Lemma allocate_zero_witness :
  Buf.within_capacity (snd (Buf.allocate 60 (Buf.Buffer_new 4096 60))) /\
  Buf.max_len (snd (Buf.allocate 60 (Buf.Buffer_new 4096 60))) < 2 ^ 32 /\
  Buf.allocate 0 (snd (Buf.allocate 60 (Buf.Buffer_new 4096 60)))
  = (true, snd (Buf.allocate 60 (Buf.Buffer_new 4096 60))).
Proof.
  assert (H1 : Buf.within_capacity
                 (snd (Buf.allocate 60 (Buf.Buffer_new 4096 60))))
    by (unfold Buf.within_capacity; simpl; change (u32 60) with 60; lia).
  assert (H2 : Buf.max_len (snd (Buf.allocate 60 (Buf.Buffer_new 4096 60)))
               < 2 ^ 32) by (simpl; lia).
  split; [exact H1|]. split; [exact H2|].
  exact (allocate_zero _ H1 H2).
Defined.

(** X11: as long as no sum wraps the buffer stays anchored.  After any
    sequence of [allocate] and [clear] calls none of which wraps,
    [base + size()] is [buf + size + 1], the size is within the capacity,
    and [clear] gives back the buffer as it was constructed. *)
Theorem no_wrap_run_anchored (buf sz : Z) (cs : list Buf.call) :
  0 <= sz -> Buf.calls_no_wrap (Buf.Buffer_new buf sz) cs ->
  Buf.base (Buf.run cs (Buf.Buffer_new buf sz))
    + Buf.size (Buf.run cs (Buf.Buffer_new buf sz)) = buf + sz + 1 /\
  0 <= Buf.size (Buf.run cs (Buf.Buffer_new buf sz)) <= sz /\
  Buf.clear (Buf.run cs (Buf.Buffer_new buf sz)) = Buf.Buffer_new buf sz.
Proof.
  intros Hsz Hcs.
  destruct (Buffer_new_invariants buf sz Hsz) as [Hw Ha].
  destruct (run_no_wrap_invariants buf sz cs _ Hw Ha Hcs) as [Hw' Ha'].
  unfold Buf.within_capacity in Hw'. unfold Buf.anchored in Ha'.
  rewrite run_max_len in Hw'. simpl in Hw'.
  split; [exact Ha'|]. split; [exact Hw'|].
  now apply clear_after_no_wrap.
Qed.

Lemma no_wrap_run_anchored_witness :
  0 <= 60 /\
  Buf.calls_no_wrap (Buf.Buffer_new 4096 60)
    [Buf.Allocate 20; Buf.Allocate 40; Buf.Allocate 1; Buf.Clear;
     Buf.Allocate 60] /\
  Buf.clear
    (Buf.run [Buf.Allocate 20; Buf.Allocate 40; Buf.Allocate 1; Buf.Clear;
              Buf.Allocate 60] (Buf.Buffer_new 4096 60))
  = Buf.Buffer_new 4096 60.
Proof.
  assert (H0 : 0 <= 60) by lia.
  assert (H1 : Buf.calls_no_wrap (Buf.Buffer_new 4096 60)
                 [Buf.Allocate 20; Buf.Allocate 40; Buf.Allocate 1;
                  Buf.Clear; Buf.Allocate 60])
    by (vm_compute; repeat split; try reflexivity; discriminate).
  split; [exact H0|]. split; [exact H1|].
  exact (proj2 (proj2 (no_wrap_run_anchored 4096 60 _ H0 H1))).
Defined.

(** With a capacity of at most [PKT_MAX], 16-bit lengths cannot wrap. *)
Lemma short_calls_no_wrap (cs : list Buf.call) (b : Buf.Buffer) :
  Buf.within_capacity b -> Buf.max_len b <= Codec.PKT_MAX ->
  Forall Codec.short_call cs -> Buf.calls_no_wrap b cs.
Proof.
  intros Hw Hm Hcs. revert b Hw Hm.
  induction Hcs as [|c cs Hc Hcs IH]; intros b Hw Hm; simpl.
  - exact I.
  - change Codec.PKT_MAX with 67053 in Hm.
    unfold Buf.within_capacity in Hw.
    split; [|split].
    + destruct c as [len|]; simpl in *; [|exact I].
      unfold is_u16, is_u32 in *. change (2 ^ 16) with 65536 in Hc. lia.
    + destruct c as [len|]; simpl in *; [|exact I].
      unfold is_u16 in Hc. change (2 ^ 16) with 65536 in Hc. lia.
    + apply IH.
      * now apply step_within_capacity.
      * rewrite step_max_len. exact Hm.
Qed.

(** X12: a buffer of at most [Codec::PKT_MAX] bytes that is asked for
    16-bit lengths only never wraps: after any such sequence of
    [allocate] and [clear] calls [base + size()] is [buf + size + 1], the
    size is within the capacity, and [clear] gives back the buffer as it
    was constructed. *)
Theorem short_calls_anchored (buf sz : Z) (cs : list Buf.call) :
  0 <= sz <= Codec.PKT_MAX -> Forall Codec.short_call cs ->
  Buf.base (Buf.run cs (Buf.Buffer_new buf sz))
    + Buf.size (Buf.run cs (Buf.Buffer_new buf sz)) = buf + sz + 1 /\
  0 <= Buf.size (Buf.run cs (Buf.Buffer_new buf sz)) <= sz /\
  Buf.clear (Buf.run cs (Buf.Buffer_new buf sz)) = Buf.Buffer_new buf sz.
Proof.
  intros Hsz Hcs.
  assert (Hnw : Buf.calls_no_wrap (Buf.Buffer_new buf sz) cs).
  { apply short_calls_no_wrap; [|simpl; lia|exact Hcs].
    unfold Buf.within_capacity. simpl. lia. }
  destruct (Buffer_new_invariants buf sz (proj1 Hsz)) as [Hw Ha].
  destruct (run_no_wrap_invariants buf sz cs _ Hw Ha Hnw) as [Hw' Ha'].
  unfold Buf.within_capacity in Hw'. unfold Buf.anchored in Ha'.
  rewrite run_max_len in Hw'. simpl in Hw'.
  split; [exact Ha'|]. split; [exact Hw'|].
  apply clear_after_no_wrap; [lia|exact Hnw].
Qed.

Lemma short_calls_anchored_witness :
  0 <= Codec.PKT_MAX <= Codec.PKT_MAX /\
  Forall Codec.short_call
    [Buf.Allocate 20; Buf.Allocate 0xFFFF; Buf.Allocate 0xFFFF; Buf.Clear;
     Buf.Allocate 14] /\
  Buf.size
    (Buf.run [Buf.Allocate 20; Buf.Allocate 0xFFFF; Buf.Allocate 0xFFFF;
              Buf.Clear; Buf.Allocate 14] (Buf.Buffer_new 4096 Codec.PKT_MAX))
  <= Codec.PKT_MAX.
Proof.
  assert (H0 : 0 <= Codec.PKT_MAX <= Codec.PKT_MAX)
    by (change Codec.PKT_MAX with 67053; lia).
  assert (Hu : forall n, 0 <= n < 2 ^ 16 ->
               Codec.short_call (Buf.Allocate n)) by (intros n Hn; exact Hn).
  assert (H1 : Forall Codec.short_call
                 [Buf.Allocate 20; Buf.Allocate 0xFFFF; Buf.Allocate 0xFFFF;
                  Buf.Clear; Buf.Allocate 14]).
  { repeat (apply Forall_cons; [first [exact I | apply Hu; lia]|]).
    apply Forall_nil. }
  split; [exact H0|]. split; [exact H1|].
  exact (proj2 (proj1 (proj2 (short_calls_anchored 4096 Codec.PKT_MAX _
                                H0 H1)))).
Defined.

(** ** The packet type and the flag sets *)

Lemma PktType_of_val_some v t :
  Decode.PktType_of_val v = Some t -> v = Decode.PktType_val t.
Proof.
  unfold Decode.PktType_of_val.
  repeat match goal with
         | |- context [?a =? ?b] => destruct (Z.eqb_spec a b)
         end;
    intros E; inversion E; subst; reflexivity.
Qed.

(** The low three bits of [decode_flags] are the packet type read. *)
Lemma get_pkt_type_bits (IpApi MplsHdr : Type)
    (s : Decode.SnortData IpApi MplsHdr) :
  Decode.get_pkt_type s = Decode.decode_flags s mod 2 ^ 3.
Proof.
  unfold Decode.get_pkt_type.
  change Decode.PKT_TYPE_MASK with (Z.ones 3).
  rewrite Z.land_ones by lia.
  apply wrap_small.
  pose proof (Z.mod_pos_bound (Decode.decode_flags s) (2 ^ 3) ltac:(lia)).
  change (2 ^ 3) with 8 in *. change (2 ^ 8) with 256. lia.
Qed.

(** Two states that differ in [decode_flags] at most. *)
Lemma SnortData_eq (IpApi MplsHdr : Type)
    (s : Decode.SnortData IpApi MplsHdr) (v : Decode.PktType) (d : Z) :
  Decode.decode_flags (Decode.set_pkt_type v s) = d ->
  Decode.set_pkt_type v s =
    Decode.Build_SnortData IpApi MplsHdr (Decode.tcph s) (Decode.udph s)
      (Decode.icmph s) (Decode.sp s) (Decode.dp s) d (Decode.ip_api s)
      (Decode.mplsHdr s).
Proof. intros <-. reflexivity. Qed.

(** X13: the last [set_pkt_type] wins: setting a type over another one
    leaves the state that setting it directly leaves. *)
Theorem set_pkt_type_twice (IpApi MplsHdr : Type)
    (s : Decode.SnortData IpApi MplsHdr) (v1 v2 : Decode.PktType) :
  Decode.set_pkt_type v2 (Decode.set_pkt_type v1 s) = Decode.set_pkt_type v2 s.
Proof.
  assert (E : Decode.decode_flags
                (Decode.set_pkt_type v2 (Decode.set_pkt_type v1 s))
              = Decode.decode_flags (Decode.set_pkt_type v2 s)).
  { apply Z.bits_inj'. intros i Hi.
    rewrite !set_pkt_type_bits by assumption.
    destruct (i <? 3); [reflexivity|].
    destruct (i <? 16); reflexivity. }
  rewrite (SnortData_eq _ _ _ v2 _ E).
  rewrite (SnortData_eq _ _ s v2 _ eq_refl).
  reflexivity.
Qed.

(** X14: writing back the packet type that was read changes nothing:
    when [get_pkt_type] returns the enumerator [t], [set_pkt_type t]
    leaves the state as it is. *)
Theorem set_pkt_type_of_get (IpApi MplsHdr : Type)
    (s : Decode.SnortData IpApi MplsHdr) (t : Decode.PktType) :
  is_u16 (Decode.decode_flags s) ->
  Decode.PktType_of_val (Decode.get_pkt_type s) = Some t ->
  Decode.set_pkt_type t s = s.
Proof.
  intros Hdf Ht. apply PktType_of_val_some in Ht.
  rewrite get_pkt_type_bits in Ht.
  assert (E : Decode.decode_flags (Decode.set_pkt_type t s)
              = Decode.decode_flags s).
  { apply Z.bits_inj'. intros i Hi.
    rewrite set_pkt_type_bits by assumption.
    destruct (Z.ltb_spec i 3) as [Hlo|Hhi].
    - rewrite <- Ht. apply Z.mod_pow2_bits_low. lia.
    - destruct (Z.ltb_spec i 16) as [Hin|Hout]; [reflexivity|].
      symmetry. unfold is_u16 in Hdf.
      rewrite <- (Z.mod_small _ _ Hdf).
      apply Z.mod_pow2_bits_high. lia. }
  rewrite (SnortData_eq _ _ s t _ E). destruct s. reflexivity.
Qed.

Lemma set_pkt_type_of_get_witness :
  is_u16 0x0A13 /\
  Decode.PktType_of_val
    (Decode.get_pkt_type
       (Decode.Build_SnortData unit unit 0 7 0 53 4000 0x0A13 tt tt))
  = Some Decode.UDP /\
  Decode.set_pkt_type Decode.UDP
    (Decode.Build_SnortData unit unit 0 7 0 53 4000 0x0A13 tt tt)
  = Decode.Build_SnortData unit unit 0 7 0 53 4000 0x0A13 tt tt.
Proof.
  assert (H1 : is_u16 0x0A13) by (unfold is_u16; lia).
  assert (H2 : Decode.PktType_of_val
                 (Decode.get_pkt_type
                    (Decode.Build_SnortData unit unit 0 7 0 53 4000 0x0A13
                       tt tt)) = Some Decode.UDP) by reflexivity.
  split; [exact H1|]. split; [exact H2|].
  exact (set_pkt_type_of_get unit unit
           (Decode.Build_SnortData unit unit 0 7 0 53 4000 0x0A13 tt tt)
           Decode.UDP H1 H2).
Defined.

(** X15: [get_pkt_type] returns a value from 0 to 7, and the value names
    no enumerator of [PktType] exactly when the low three bits of
    [decode_flags] are all set ([PKT_TYPE_FREE]). *)
Theorem get_pkt_type_unnamed (IpApi MplsHdr : Type)
    (s : Decode.SnortData IpApi MplsHdr) :
  0 <= Decode.get_pkt_type s <= Decode.PKT_TYPE_MASK /\
  (Decode.PktType_of_val (Decode.get_pkt_type s) = None <->
   Z.land (Decode.decode_flags s) Decode.PKT_TYPE_MASK
     = Decode.PKT_TYPE_FREE).
Proof.
  assert (Hg : Decode.get_pkt_type s
               = Z.land (Decode.decode_flags s) Decode.PKT_TYPE_MASK).
  { rewrite get_pkt_type_bits.
    change Decode.PKT_TYPE_MASK with (Z.ones 3).
    now rewrite Z.land_ones by lia. }
  rewrite <- Hg.
  pose proof (get_pkt_type_bits IpApi MplsHdr s) as Hm.
  pose proof (Z.mod_pos_bound (Decode.decode_flags s) (2 ^ 3) ltac:(lia)) as Hb.
  rewrite <- Hm in Hb. change (2 ^ 3) with 8 in Hb.
  change Decode.PKT_TYPE_MASK with 7. change Decode.PKT_TYPE_FREE with 7.
  split; [lia|].
  assert (Hcases : Decode.get_pkt_type s = 0 \/ Decode.get_pkt_type s = 1 \/
                   Decode.get_pkt_type s = 2 \/ Decode.get_pkt_type s = 3 \/
                   Decode.get_pkt_type s = 4 \/ Decode.get_pkt_type s = 5 \/
                   Decode.get_pkt_type s = 6 \/ Decode.get_pkt_type s = 7)
    by lia.
  destruct Hcases as [E|[E|[E|[E|[E|[E|[E|E]]]]]]]; rewrite E;
    split; intros H; try reflexivity; try discriminate H.
Qed.

(** X16: [set_pkt_type] leaves every decode flag as it is: for each of
    the checksum and time-to-live error flags, their union
    [DECODE_ERR_FLAGS], the trust flag and the two fragment flags,
    [decode_flags & flag] is the same before and after, whatever
    [decode_flags] held. *)
Theorem set_pkt_type_keeps_flag_tests (IpApi MplsHdr : Type)
    (s : Decode.SnortData IpApi MplsHdr) (v : Decode.PktType) :
  Forall (fun m =>
            Z.land (Decode.decode_flags (Decode.set_pkt_type v s)) m
            = Z.land (Decode.decode_flags s) m /\
            to_bool (Z.land (Decode.decode_flags (Decode.set_pkt_type v s)) m)
            = to_bool (Z.land (Decode.decode_flags s) m))
    [ Decode.DECODE_ERR_CKSUM_IP; Decode.DECODE_ERR_CKSUM_TCP;
      Decode.DECODE_ERR_CKSUM_UDP; Decode.DECODE_ERR_CKSUM_ICMP;
      Decode.DECODE_ERR_CKSUM_ANY; Decode.DECODE_ERR_BAD_TTL;
      Decode.DECODE_ERR_FLAGS; Decode.DECODE_PKT_TRUST; Decode.DECODE_FRAG;
      Decode.DECODE_MF ].
Proof.
  assert (Hk : forall m, is_u16 m -> Z.land m Decode.PKT_TYPE_MASK = 0 ->
               Z.land (Decode.decode_flags (Decode.set_pkt_type v s)) m
               = Z.land (Decode.decode_flags s) m /\
               to_bool (Z.land (Decode.decode_flags (Decode.set_pkt_type v s)) m)
               = to_bool (Z.land (Decode.decode_flags s) m)).
  { intros m Hm Hd.
    rewrite (set_pkt_type_keeps_mask IpApi MplsHdr s v m Hm Hd).
    split; reflexivity. }
  repeat (constructor;
          [apply Hk;
           [unfold is_u16; split; [discriminate|reflexivity] | reflexivity]|]).
  constructor.
Qed.

(** X17: the layout of [DecodeFlags].  The six error flags, the trust
    flag and the two fragment flags are the single bits 3 to 11;
    [DECODE_ERR_FLAGS] is [0x01F8], holds each error flag and none of the
    other three; no flag overlaps [PKT_TYPE_MASK], and every enumerator of
    [PktType] lies within the mask. *)
Theorem decode_flags_layout :
  [ Decode.DECODE_ERR_CKSUM_IP; Decode.DECODE_ERR_CKSUM_TCP;
    Decode.DECODE_ERR_CKSUM_UDP; Decode.DECODE_ERR_CKSUM_ICMP;
    Decode.DECODE_ERR_CKSUM_ANY; Decode.DECODE_ERR_BAD_TTL;
    Decode.DECODE_PKT_TRUST; Decode.DECODE_FRAG; Decode.DECODE_MF ]
  = map (fun k => 2 ^ k) [3; 4; 5; 6; 7; 8; 9; 10; 11] /\
  Decode.DECODE_ERR_FLAGS = 0x01F8 /\
  Forall (fun m => has_flags Decode.DECODE_ERR_FLAGS m)
    [ Decode.DECODE_ERR_CKSUM_IP; Decode.DECODE_ERR_CKSUM_TCP;
      Decode.DECODE_ERR_CKSUM_UDP; Decode.DECODE_ERR_CKSUM_ICMP;
      Decode.DECODE_ERR_CKSUM_ANY; Decode.DECODE_ERR_BAD_TTL ] /\
  Forall (fun m => Z.land Decode.DECODE_ERR_FLAGS m = 0)
    [ Decode.DECODE_PKT_TRUST; Decode.DECODE_FRAG; Decode.DECODE_MF ] /\
  Forall (fun m => Z.land m Decode.PKT_TYPE_MASK = 0 /\ is_u16 m)
    Decode.decode_flag_bits /\
  Forall (fun t => Z.land (Decode.PktType_val t) Decode.PKT_TYPE_MASK
                   = Decode.PktType_val t)
    Decode.all_PktType.
Proof.
  split; [reflexivity|]. split; [reflexivity|].
  split; [repeat (constructor; [reflexivity|]); constructor|].
  split; [repeat (constructor; [reflexivity|]); constructor|].
  split.
  - unfold Decode.decode_flag_bits, is_u16.
    repeat (constructor;
            [split; [reflexivity|split; [discriminate|reflexivity]]|]).
    constructor.
  - repeat (constructor; [reflexivity|]). constructor.
Qed.

(** X18: the sixteen protocol bits are the single bits 0 to 15, one
    each, and together they make [PROTO_BIT__ALL]; [PROTO_BIT__NONE] has
    none of them. *)
Theorem proto_bits_layout :
  Codec.proto_bits_all
  = map (fun k => 2 ^ k)
      [0; 1; 2; 3; 4; 5; 6; 7; 8; 9; 10; 11; 12; 13; 14; 15] /\
  fold_right Z.lor Codec.PROTO_BIT__NONE Codec.proto_bits_all
  = Codec.PROTO_BIT__ALL /\
  Forall (fun m => has_flags Codec.PROTO_BIT__ALL m /\
                   Z.land Codec.PROTO_BIT__NONE m = 0)
    Codec.proto_bits_all /\
  ForallOrdPairs (fun m n => Z.land m n = 0) Codec.proto_bits_all.
Proof.
  split; [reflexivity|]. split; [reflexivity|]. split.
  - unfold Codec.proto_bits_all.
    repeat (constructor; [split; reflexivity|]). constructor.
  - unfold Codec.proto_bits_all.
    repeat (constructor; [repeat (constructor; [reflexivity|]); constructor|]).
    constructor.
Qed.

(** X19: the nine codec flags are the single bits 0 to 8 and
    [CODEC_IPOPT_FLAGS] is [0x0070].  Setting [CODEC_ENCAP_LAYER] in a
    [codec_flags] value, or clearing it, changes no other codec flag, and
    clearing it removes both the save-layer and the unsure-encapsulation
    bit. *)
Theorem codec_flags_layout :
  Codec.codec_flag_bits = map (fun k => 2 ^ k) [0; 1; 2; 3; 4; 5; 6; 7; 8] /\
  Codec.CODEC_IPOPT_FLAGS = 0x0070 /\
  Forall (fun m => forall cf : Z,
            Z.land (Z.lor cf Decode.CODEC_ENCAP_LAYER) m = Z.land cf m /\
            Z.land (Z.land cf (Z.lnot Decode.CODEC_ENCAP_LAYER)) m
            = Z.land cf m)
    [ Decode.CODEC_DF; Decode.CODEC_ROUTING_SEEN; Decode.CODEC_IPOPT_RR_SEEN;
      Decode.CODEC_IPOPT_RTRALT_SEEN; Decode.CODEC_IPOPT_LEN_THREE;
      Decode.CODEC_TEREDO_SEEN; Decode.CODEC_STREAM_REBUILT;
      Codec.CODEC_IPOPT_FLAGS ] /\
  (forall cf : Z,
     Z.land (Z.land cf (Z.lnot Decode.CODEC_ENCAP_LAYER))
       Decode.CODEC_ENCAP_LAYER = 0 /\
     Z.land (Z.land cf (Z.lnot Decode.CODEC_ENCAP_LAYER))
       Decode.CODEC_SAVE_LAYER = 0 /\
     Z.land (Z.land cf (Z.lnot Decode.CODEC_ENCAP_LAYER))
       Decode.CODEC_UNSURE_ENCAP = 0).
Proof.
  assert (Hother : forall m,
            Z.land Decode.CODEC_ENCAP_LAYER m = 0 ->
            Z.land (Z.lnot Decode.CODEC_ENCAP_LAYER) m = m ->
            forall cf : Z,
              Z.land (Z.lor cf Decode.CODEC_ENCAP_LAYER) m = Z.land cf m /\
              Z.land (Z.land cf (Z.lnot Decode.CODEC_ENCAP_LAYER)) m
              = Z.land cf m).
  { intros m H0 H1 cf. split.
    - now rewrite Z.land_lor_distr_l, H0, Z.lor_0_r.
    - now rewrite <- Z.land_assoc, H1. }
  assert (Hgone : forall m,
            Z.land (Z.lnot Decode.CODEC_ENCAP_LAYER) m = 0 ->
            forall cf : Z,
              Z.land (Z.land cf (Z.lnot Decode.CODEC_ENCAP_LAYER)) m = 0).
  { intros m H0 cf. now rewrite <- Z.land_assoc, H0, Z.land_0_r. }
  split; [reflexivity|]. split; [reflexivity|]. split.
  - repeat (constructor; [apply Hother; reflexivity|]). constructor.
  - intros cf. repeat split; apply Hgone; reflexivity.
Qed.
